(** * partner-cloud: access-resolution and orchestration workflow

    A shallow embedding of the Python sources

      - [partner_cloud/objects.py]
      - [partner_cloud/activities/ldap.py]
      - [partner_cloud/activities/launchpad.py]
      - [partner_cloud/activities/jira.py]
      - [partner_cloud/workflows/grant_access.py]

    Python values are modelled as follows: [None]-able attributes are
    [option]s, exceptions are an explicit [result] type, a [set] is a
    duplicate-free list whose membership test is Python's (equal hash and
    [__eq__]) and whose iteration order, which Python leaves open, is the
    order of insertion, an insertion-ordered [dict] is an association
    list, and the remote services (LDAP, Launchpad, Jira) are records of
    operations that may raise. An activity is called directly: the
    serialisation and the retries of the workflow engine are left out. *)

From Stdlib Require Import ZArith.
From stdpp Require Import base option list strings gmap.

Open Scope string_scope.
Open Scope list_scope.

(** ** Exceptions and results *)

(** The exception classes that the modelled code raises, lets through or
    catches. *)
Inductive exn : Type :=
| Exception (msg : string)       (* the built-in [Exception(msg)] *)
| AttributeError (msg : string)  (* attribute access on [None] *)
| KeyError                       (* [launchpad.people[...]] on an unknown name *)
| NoSuchOptError                 (* oslo.config: unknown option or group *)
| LDAPException                  (* ldap3.core.exceptions *)
| JIRAError                      (* jira.exceptions *)
| HTTPError.                     (* lazr.restfulclient errors other than 404 *)

Inductive result (A : Type) : Type :=
| Ok (a : A)
| Raise (e : exn).
Arguments Ok {A} a.
Arguments Raise {A} e.

#[global] Instance exn_eq_dec : EqDecision exn.
Proof. solve_decision. Defined.

#[global] Instance result_ret : MRet result := @Ok.
#[global] Instance result_bind : MBind result := fun A B f m =>
  match m with
  | Ok a => f a
  | Raise e => Raise e
  end.

Definition is_Ok {A} (r : result A) : bool :=
  match r with Ok _ => true | Raise _ => false end.

(** [[f(x) for x in xs]] for an [f] that may raise: the first exception
    aborts the comprehension. *)
Fixpoint list_comprehension {A B} (f : A → result B) (xs : list A) : result (list B) :=
  match xs with
  | [] => Ok []
  | x :: xs' => y ← f x; ys ← list_comprehension f xs'; Ok (y :: ys)
  end.

(** Python truthiness of an [Optional[str]]: [None] and the empty string
    are falsy. *)
Definition truthy (s : option string) : bool :=
  match s with
  | None => false
  | Some v => negb (bool_decide (v = EmptyString))
  end.

(** ** objects.py *)

(** [hash(str)]: Python seeds its string hash per process, so nothing but
    its being a function of the string is used. *)
Class StrHash := hash_str : string → Z.

(** What a [set] or a [dict] uses of its elements: [__hash__] and [__eq__]. *)
Class Hashable (A : Type) := {
  py_hash : A → Z;
  py_eq : A → A → bool;
}.

(** [class User(Object)]: [name] is a required [str], the other two fields
    default to [None]. *)
Record User : Type := {
  name : string;
  email : option string;
  launchpad_id : option string;
}.

#[global] Instance User_eq_dec : EqDecision User.
Proof. solve_decision. Defined.

(** [Object.__hash__]: [hash(self.name)]. *)
Definition Object_hash `{StrHash} (name_of_self : string) : Z := hash_str name_of_self.

(** [User.__eq__] is not defined in [objects.py]; it is inherited from
    pydantic's [BaseModel], which compares two models of the same class
    field by field. *)
Definition User_eq (u v : User) : bool :=
  bool_decide (name u = name v)
  && bool_decide (email u = email v)
  && bool_decide (launchpad_id u = launchpad_id v).

#[global] Instance User_hashable `{StrHash} : Hashable User := {|
  py_hash u := Object_hash (name u);
  py_eq := User_eq;
|}.

(** ** Python sets and dicts *)

Section Containers.
Context {A : Type} `{Hashable A}.

(** Two objects occupy the same slot of a hash table when their hashes
    agree and [__eq__] holds. *)
Definition same_element (x y : A) : bool :=
  (py_hash x =? py_hash y)%Z && py_eq x y.

(** [x in s] *)
Definition set_contains (s : list A) (x : A) : bool :=
  existsb (same_element x) s.

(** [s.add(x)]: the element already present is kept. *)
Definition set_add (s : list A) (x : A) : list A :=
  if set_contains s x then s else s ++ [x].

(** [s.update(xs)] *)
Definition set_update (s : list A) (xs : list A) : list A :=
  fold_left set_add xs s.

(** [set(xs)] *)
Definition set_of (xs : list A) : list A := set_update [] xs.

Context {V : Type}.

(** [d.get(k)] on an insertion-ordered dict. *)
Fixpoint dict_get (d : list (A * V)) (k : A) : option V :=
  match d with
  | [] => None
  | (k', v) :: d' => if same_element k k' then Some v else dict_get d' k
  end.

(** [d[k] = v]: an existing key keeps its place (and the key object
    first inserted); a new key goes last. *)
Fixpoint dict_set (d : list (A * V)) (k : A) (v : V) : list (A * V) :=
  match d with
  | [] => [(k, v)]
  | (k', v') :: d' =>
      if same_element k k' then (k', v) :: d' else (k', v') :: dict_set d' k v
  end.
End Containers.

(** ** activities/ldap.py *)

Definition ATTR_CN : string := "cn".
Definition ATTR_LAUNCHPAD_ID : string := "launchpadId".
Definition ATTR_MAIL : string := "mail".

Definition LDAP_ATTRIBUTES : list string := [ATTR_CN; ATTR_LAUNCHPAD_ID; ATTR_MAIL].

Definition get_identity_attribute (user : User) : string :=
  if email user is Some _ then "mail"
  else if launchpad_id user is Some _ then "launchpadId"
  else "cn".

(** The warning logged on the fall-back to the name has no effect on the
    value returned. *)
Definition get_filter_parameter (user : User) : string :=
  match email user, launchpad_id user with
  | Some e, _ => "(mail=" ++ e ++ ")"
  | None, Some l => "(launchpadId=" ++ l ++ ")"
  | None, None => "(cn=" ++ name user ++ ")"
  end.

(** [user.name is not None] always holds: [name] is a required [str]. *)
Definition is_fully_resolved (user : User) : bool :=
  bool_decide (email user ≠ None)
  && bool_decide (launchpad_id user ≠ None)
  && true.

(** A record returned by the directory, with the [.value] of the three
    requested attributes. *)
Record LdapEntry : Type := {
  cn : string;
  mail : option string;
  launchpadId : option string;
}.

(** The [ldap3] connection. [ldap_search base filter attributes] is the
    content of [client.entries] after [client.search(...)], which itself
    answers whether that list is non-empty. *)
Record LdapServer : Type := {
  ldap_bind : result bool;
  ldap_search : string → string → list string → result (list LdapEntry);
}.

(** The requests a call sends to the directory, in order. *)
Inductive LdapCall : Type :=
| Bind
| Search (search_base search_filter : string) (attributes : list string).

Definition nl : string := String (Ascii.ascii_of_nat 10) EmptyString.

(** The dedented and stripped f-string around the joined clauses. *)
Definition search_filter_of (filter_parameters : list string) : string :=
  "(&" ++ nl ++
  "    (|" ++ nl ++
  "        " ++ String.concat EmptyString filter_parameters ++ nl ++
  "    )" ++ nl ++
  "    (objectclass=person)" ++ nl ++
  ")".

(** [results_map = defaultdict(dict)]: attribute name, then attribute value. *)
Definition results_index : Type := gmap string (gmap (option string) LdapEntry).

Definition index_entry (results_map : results_index) (entry : LdapEntry) : results_index :=
  let m1 := <[ATTR_CN := <[Some (cn entry) := entry]> (results_map !!! ATTR_CN)]> results_map in
  let m2 := <[ATTR_MAIL := <[mail entry := entry]> (m1 !!! ATTR_MAIL)]> m1 in
  <[ATTR_LAUNCHPAD_ID := <[launchpadId entry := entry]> (m2 !!! ATTR_LAUNCHPAD_ID)]> m2.

Definition index_entries (entries : list LdapEntry) : results_index :=
  fold_left index_entry entries ∅.

(** The two kinds of value that [attr] is compared with in the loop. *)
Inductive PyValue : Type :=
| PyBool (b : bool)
| PyStr (s : string).

(** [==] between those: a [bool] never equals a [str]. *)
Definition py_equals (x y : PyValue) : bool :=
  match x, y with
  | PyBool a, PyBool b => bool_decide (a = b)
  | PyStr a, PyStr b => bool_decide (a = b)
  | _, _ => false
  end.

(** The [if attr := get_identity_attribute(user) == ATTR_MAIL: ... elif
    attr == ATTR_LAUNCHPAD_ID: ... else: ...] chain. [:=] binds weaker
    than [==], so [attr] is the outcome of the comparison. *)
Definition lookup_result (results_map : results_index) (user : User) : option LdapEntry :=
  let attr := PyBool (bool_decide (get_identity_attribute user = ATTR_MAIL)) in
  if py_equals attr (PyBool true) then
    (results_map !!! ATTR_MAIL) !! email user
  else if py_equals attr (PyStr ATTR_LAUNCHPAD_ID) then
    (results_map !!! ATTR_LAUNCHPAD_ID) !! launchpad_id user
  else
    (results_map !!! ATTR_CN) !! Some (name user).

(** One turn of [for user in users]: [result.cn] on a [None] result
    raises. *)
Definition resolve_user `{StrHash} (results_map : results_index)
    (resolved_users : list User) (user : User) : result (list User) :=
  match lookup_result results_map user with
  | None => Raise (AttributeError "'NoneType' object has no attribute 'cn'")
  | Some r =>
      Ok (set_add resolved_users
            {| name := cn r; email := mail r; launchpad_id := launchpadId r |})
  end.

Fixpoint resolve_loop `{StrHash} (results_map : results_index)
    (resolved_users : list User) (users : list User) : result (list User) :=
  match users with
  | [] => Ok resolved_users
  | user :: rest =>
      resolved_users' ← resolve_user results_map resolved_users user;
      resolve_loop results_map resolved_users' rest
  end.

(** [except LDAPException as e: ...; raise e] *)
Definition except_LDAPException {A} (r : result A) : result A :=
  match r with
  | Raise LDAPException => Raise LDAPException
  | other => other
  end.

Definition no_results_msg (search_base search_filter : string) : string :=
  "No search results matched query with search base = '" ++ search_base
  ++ "' and search filter = " ++ search_filter.

(** [resolve_users], with the list of directory requests it has sent.
    [search_base] is [CONF.ldap.search_base]. *)
Definition resolve_users `{StrHash} (search_base : string) (ldap : LdapServer)
    (users : list User) : list LdapCall * result (list User) :=
  if bool_decide (users = []) then ([], Ok [])
  else if forallb is_fully_resolved users then ([], Ok (set_of users))
  else
    match ldap_bind ldap with
    | Raise e => ([Bind], except_LDAPException (Raise e))
    | Ok _ =>
        let filter_parameters := map get_filter_parameter users in
        let search_filter := search_filter_of filter_parameters in
        let calls := [Bind; Search search_base search_filter LDAP_ATTRIBUTES] in
        match ldap_search ldap search_base search_filter LDAP_ATTRIBUTES with
        | Raise e => (calls, except_LDAPException (Raise e))
        | Ok entries =>
            (calls,
             except_LDAPException
               (if bool_decide (entries = []) then
                  Raise (Exception (no_results_msg search_base search_filter))
                else resolve_loop (index_entries entries) [] users))
        end
    end.

(** ** activities/launchpad.py *)

(** Only users are ever appended to the two lists. Each instance gets
    lists of its own: pydantic copies a mutable default per instance. *)
Record LaunchpadGroupChangeResult : Type := {
  group : string;
  success : list User;
  failed : list (User * string);
}.

Definition has_failures (self : LaunchpadGroupChangeResult) : bool :=
  bool_decide (length (failed self) = 0).

Definition add_success (self : LaunchpadGroupChangeResult) (user : User)
    : LaunchpadGroupChangeResult :=
  {| group := group self; success := success self ++ [user]; failed := failed self |}.

Definition add_failure (self : LaunchpadGroupChangeResult) (user : User) (reason : string)
    : LaunchpadGroupChangeResult :=
  {| group := group self; success := success self; failed := failed self ++ [(user, reason)] |}.

(** An element of [memberships_details]; the team is given by its
    Launchpad name, which identifies it. *)
Record Membership : Type := {
  team : string;
  status : string;
}.

(** What [launchpad.people[...]] returns, for a person or for a team. *)
Record LpPerson : Type := {
  lp_name : string;
  is_valid : bool;
  memberships_details : list Membership;
}.

(** The [for membership in lp_user.memberships_details] loop, with its
    [break] and [continue] statements. *)
Fixpoint check_memberships_loop (canonical_group target_group : LpPerson)
    (memberships : list Membership) (is_employee already_in_group : bool) : bool * bool :=
  match memberships with
  | [] => (is_employee, already_in_group)
  | membership :: rest =>
      if bool_decide (team membership = lp_name canonical_group) then
        if already_in_group then (true, already_in_group)
        else check_memberships_loop canonical_group target_group rest true already_in_group
      else if bool_decide (team membership = lp_name target_group)
              && bool_decide (status membership ∈ ["Approved"; "Administrator"]) then
        if is_employee then (is_employee, true)
        else check_memberships_loop canonical_group target_group rest is_employee true
      else check_memberships_loop canonical_group target_group rest is_employee already_in_group
  end.

Definition _check_memberships (lp_user canonical_group target_group : LpPerson) : bool * bool :=
  check_memberships_loop canonical_group target_group (memberships_details lp_user) false false.

(** A computation against the Launchpad service: it sees and changes the
    state [S] of the service, and returns or raises. *)
Definition LP (S A : Type) : Type := S → S * result A.

Definition lp_ret {S A} (a : A) : LP S A := fun st => (st, Ok a).

Definition lp_bind {S A B} (m : LP S A) (f : A → LP S B) : LP S B := fun st =>
  match m st with
  | (st', Ok a) => f a st'
  | (st', Raise e) => (st', Raise e)
  end.

Notation "'do' x <- m ; k" := (lp_bind m (fun x => k))
  (at level 10, x name, m at level 100, k at level 200).

(** [try: body except KeyError: handler] *)
Definition except_KeyError {S A} (body handler : LP S A) : LP S A := fun st =>
  match body st with
  | (st', Raise KeyError) => handler st'
  | other => other
  end.

(** The logged-in [launchpadlib] client: [people name] is
    [launchpad.people[name]], [addMember g p s] is
    [g.addMember(person=p, status=s)]. *)
Record Launchpad (S : Type) : Type := {
  people : string → LP S LpPerson;
  addMember : LpPerson → LpPerson → string → LP S unit;
}.
Arguments people {S} _ _ _.
Arguments addMember {S} _ _ _ _ _.

(** The body of [for user in users], a [try] with its [except KeyError].
    Every path through the [try] changes [result] last, so the handler
    finds it as it was. *)
Definition add_user_to_group {S} (launchpad : Launchpad S) (lp_group lp_canonical : LpPerson)
    (result_ : LaunchpadGroupChangeResult) (user : User) : LP S LaunchpadGroupChangeResult :=
  except_KeyError
    (if negb (truthy (launchpad_id user)) then
       lp_ret (add_failure result_ user "no launchpad id")
     else
       do lp_user <- people launchpad (default EmptyString (launchpad_id user));
       if negb (is_valid lp_user) then
         lp_ret (add_failure result_ user "invalid launchpad user")
       else
         let '(is_employee, in_group) := _check_memberships lp_user lp_canonical lp_group in
         if negb is_employee then
           lp_ret (add_failure result_ user "not a Canonical employee")
         else if in_group then
           lp_ret (add_success result_ user)
         else
           do _u <- addMember launchpad lp_group lp_user "Approved";
           lp_ret (add_success result_ user))
    (lp_ret (add_failure result_ user "User not in launchpad")).

Fixpoint add_users_loop {S} (launchpad : Launchpad S) (lp_group lp_canonical : LpPerson)
    (result_ : LaunchpadGroupChangeResult) (users : list User)
    : LP S LaunchpadGroupChangeResult :=
  match users with
  | [] => lp_ret result_
  | user :: rest =>
      do result' <- add_user_to_group launchpad lp_group lp_canonical result_ user;
      add_users_loop launchpad lp_group lp_canonical result' rest
  end.

Definition add_users_to_group {S} (launchpad : Launchpad S) (group : string)
    (users : list User) : LP S LaunchpadGroupChangeResult :=
  let result_ := {| group := group; success := []; failed := [] |} in
  do lp_group <- people launchpad group;
  do lp_canonical <- people launchpad "canonical";
  add_users_loop launchpad lp_group lp_canonical result_ users.

(** ** resources *)

(** The two resource classes that the extractor creates. An IP address is
    kept in its textual form. *)
Inductive Resource : Type :=
| InfraNode (name_ : string) (ip_address : string)
| OpenStackProject (name_ : string) (project_id : option string) (cloud : option string).

#[global] Instance Resource_eq_dec : EqDecision Resource.
Proof. solve_decision. Defined.

Definition resource_name (r : Resource) : string :=
  match r with
  | InfraNode n _ => n
  | OpenStackProject n _ _ => n
  end.

(** pydantic's [__eq__]: the same class and the same field values. *)
Definition Resource_eq (r1 r2 : Resource) : bool :=
  match r1, r2 with
  | InfraNode n1 i1, InfraNode n2 i2 => bool_decide (n1 = n2) && bool_decide (i1 = i2)
  | OpenStackProject n1 p1 c1, OpenStackProject n2 p2 c2 =>
      bool_decide (n1 = n2) && bool_decide (p1 = p2) && bool_decide (c1 = c2)
  | _, _ => false
  end.

#[global] Instance Resource_hashable `{StrHash} : Hashable Resource := {|
  py_hash r := Object_hash (resource_name r);
  py_eq := Resource_eq;
|}.

(** ** conf *)

(** A cloud section of the configuration file, every option of it set. *)
Record CloudConfig : Type := {
  cfg_name : string;
  infra_group : string;
  user_group : string;
  infra_node : string;
}.

(** [CONF]: the [clouds] list, the section registered for each of its
    members, and the scalar options that the activities read. *)
Record Conf : Type := {
  clouds : list string;
  cloud_section : string → CloudConfig;
  ldap_search_base : string;
  jira_project : string;
}.

(** [CONF.get(section)]: only the sections named in [clouds] are
    registered. *)
Definition CONF_get (CONF : Conf) (section : string) : result CloudConfig :=
  if bool_decide (section ∈ clouds CONF) then Ok (cloud_section CONF section)
  else Raise NoSuchOptError.

(** ** activities/jira.py *)

Record JiraUser : Type := {
  displayName : string;
  emailAddress : option string;
}.

(** An issue link: the name of its type and, when the link has an
    [inwardIssue] attribute, the key of that issue. *)
Record IssueLink : Type := {
  link_type_name : string;
  inwardIssue : option string;
}.

(** The fields of an issue that the activity reads. [issuelinks] is
    [None] when [issue.fields] has no such attribute; the other optional
    fields are [None] when Jira holds no value for them. *)
Record Issue : Type := {
  key : string;
  status_name : string;
  integration_layer : option (list string);
  collaborators : option (list JiraUser);
  assignee : option JiraUser;
  issuelinks : option (list IssueLink);
}.

(** The Jira client: the answer to a JQL query. *)
Record JiraServer : Type := {
  search_issues : string → result (list Issue);
}.

Definition dq : string := String (Ascii.ascii_of_nat 34) EmptyString.

Definition get_issues_for_current_sprint (CONF : Conf) (jira : JiraServer)
    (cloud : option string) : result (list Issue) :=
  let jql : string :=
    ("Project = " ++ dq ++ jira_project CONF ++ dq ++ " AND sprint in openSprints()")%string in
  let jql : string :=
    if truthy cloud
    then (jql ++ " AND " ++ dq ++ "Partner Cloud name" ++ dq ++ " = "
              ++ dq ++ default EmptyString cloud ++ dq)%string
    else jql in
  search_issues jira jql.

Definition get_issues_by_keys (CONF : Conf) (jira : JiraServer)
    (issue_keys : list string) : result (list Issue) :=
  let keys := String.concat ", " issue_keys in
  search_issues jira
    ("Project = " ++ dq ++ jira_project CONF ++ dq ++ " AND IssueKey in (" ++ keys ++ ")")%string.

Definition is_issue_completed (issue : Issue) : bool :=
  bool_decide (status_name issue = "Done").

(** The first loop of [get_pending_prerequisite_issues]. *)
Fixpoint prerequisite_issues_of (links : list IssueLink) : list string :=
  match links with
  | [] => []
  | link :: rest =>
      if negb (String.prefix "Finish-to-Start" (link_type_name link)) then
        prerequisite_issues_of rest
      else
        match inwardIssue link with
        | None => prerequisite_issues_of rest
        | Some k => k :: prerequisite_issues_of rest
        end
  end.

Definition get_pending_prerequisite_issues (CONF : Conf) (jira : JiraServer)
    (issue : Issue) : result (option (list string)) :=
  match issuelinks issue with
  | None => Ok None
  | Some links =>
      let prerequisite_issues := prerequisite_issues_of links in
      if bool_decide (prerequisite_issues = []) then Ok None
      else
        tasks ← get_issues_by_keys CONF jira prerequisite_issues;
        Ok (Some (map key (filter (λ task, is_issue_completed task = false) tasks)))
  end.

(** [convert_user] receives whatever the list holds, [None] included. *)
Definition convert_user (user : option JiraUser) : result User :=
  match user with
  | None => Raise (AttributeError "'NoneType' object has no attribute 'displayName'")
  | Some u => Ok {| name := displayName u; email := emailAddress u; launchpad_id := None |}
  end.

Record AccessResult : Type := {
  resources : list Resource;
  users : gmap string (list User);
}.

Definition from_map (data : list (Resource * list User)) : AccessResult :=
  {| resources := map fst data;
     users := fold_left (λ user_map entry, <[resource_name entry.1 := entry.2]> user_map)
                        data ∅ |}.

Definition to_map `{StrHash} (self : AccessResult) : list (Resource * list User) :=
  fold_left (λ mapping resource,
               dict_set mapping resource (default [] (users self !! resource_name resource)))
            (resources self) [].

(** [str.lower], on ASCII letters. *)
Definition lower_ascii (c : Ascii.ascii) : Ascii.ascii :=
  let n := Ascii.nat_of_ascii c in
  if Nat.leb 65 n && Nat.leb n 90 then Ascii.ascii_of_nat (n + 32) else c.

Fixpoint lower (s : string) : string :=
  match s with
  | EmptyString => EmptyString
  | String c rest => String (lower_ascii c) (lower rest)
  end.

(** [resource_map[resource].update(users)] on a [defaultdict(set)]. *)
Definition resource_map_update `{StrHash} (resource_map : list (Resource * list User))
    (resource : Resource) (new_users : list User) : list (Resource * list User) :=
  dict_set resource_map resource
    (set_update (default [] (dict_get resource_map resource)) new_users).

(** One turn of [for integration in integrations]. *)
Definition integration_step `{StrHash} (cloud : string) (infra : Resource) (issue : Issue)
    (new_users : list User) (resource_map : list (Resource * list User))
    (integration : string) : list (Resource * list User) :=
  if bool_decide (integration = "Infrastructure") then
    resource_map_update resource_map infra new_users
  else if bool_decide (integration = "Platform") then
    let project := OpenStackProject (lower (key issue)) None (Some cloud) in
    resource_map_update resource_map project new_users
  else if bool_decide (integration = "Application") then
    resource_map
  else
    resource_map.

(** One turn of [for issue in issues]. *)
Definition issue_step `{StrHash} (CONF : Conf) (jira : JiraServer) (cloud : string)
    (infra : Resource) (resource_map : list (Resource * list User)) (issue : Issue)
    : result (list (Resource * list User)) :=
  if is_issue_completed issue then Ok resource_map
  else
    pending_issues ← get_pending_prerequisite_issues CONF jira issue;
    if bool_decide (pending_issues ≠ None ∧ pending_issues ≠ Some []) then Ok resource_map
    else
      let integrations := default [] (integration_layer issue) in
      let jira_users := (Some <$> default [] (collaborators issue)) ++ [assignee issue] in
      new_users ← list_comprehension convert_user jira_users;
      Ok (fold_left (integration_step cloud infra issue new_users) integrations resource_map).

Fixpoint issues_loop `{StrHash} (CONF : Conf) (jira : JiraServer) (cloud : string)
    (infra : Resource) (resource_map : list (Resource * list User)) (issues : list Issue)
    : result (list (Resource * list User)) :=
  match issues with
  | [] => Ok resource_map
  | issue :: rest =>
      resource_map' ← issue_step CONF jira cloud infra resource_map issue;
      issues_loop CONF jira cloud infra resource_map' rest
  end.

(** [except JIRAError as e: ...; raise e] *)
Definition except_JIRAError {A} (r : result A) : result A :=
  match r with
  | Raise JIRAError => Raise JIRAError
  | other => other
  end.

Definition get_access_for_current_sprint `{StrHash} (CONF : Conf) (jira : JiraServer)
    (cloud : string) : result AccessResult :=
  except_JIRAError
    (issues ← get_issues_for_current_sprint CONF jira (Some cloud);
     config ← CONF_get CONF cloud;
     let infra := InfraNode (cloud ++ "-infra-node")%string (infra_node config) in
     resource_map ← issues_loop CONF jira cloud infra [] issues;
     Ok (from_map resource_map)).

(** ** workflows/grant_access.py *)

(** Everything outside the workflow that a run talks to. *)
Record World (S : Type) : Type := {
  world_conf : Conf;
  world_jira : JiraServer;
  world_ldap : LdapServer;
  world_launchpad : Launchpad S;
}.
Arguments world_conf {S} _.
Arguments world_jira {S} _.
Arguments world_ldap {S} _.
Arguments world_launchpad {S} _.

(** The [for c in CONF.clouds] search, up to its [break]. *)
Fixpoint find_cloud_config (CONF : Conf) (cs : list string) (cloud : string)
    : result (option CloudConfig) :=
  match cs with
  | [] => Ok None
  | c :: rest =>
      config ← CONF_get CONF c;
      if bool_decide (cfg_name config = cloud) then Ok (Some config)
      else find_cloud_config CONF rest cloud
  end.

(** [for resource, users in resource_map.copy().items()]: each user set
    is replaced by what [ldap.resolve_users] returns for it. A failed
    activity fails the workflow. *)
Fixpoint resolve_resources `{StrHash} (CONF : Conf) (ldap : LdapServer)
    (items resource_map : list (Resource * list User))
    : result (list (Resource * list User)) :=
  match items with
  | [] => Ok resource_map
  | (resource, us) :: rest =>
      resolved_users ← (resolve_users (ldap_search_base CONF) ldap us).2;
      resolve_resources CONF ldap rest (dict_set resource_map resource resolved_users)
  end.

(** The [tasks] list: the group and the users of each
    [launchpad.add_users_to_group] activity that is started. *)
Fixpoint grant_tasks (cloud_config : CloudConfig) (resource_map : list (Resource * list User))
    : list (string * list User) :=
  match resource_map with
  | [] => []
  | (resource, us) :: rest =>
      if bool_decide (us = []) then grant_tasks cloud_config rest
      else
        match resource with
        | InfraNode _ _ => (infra_group cloud_config, us) :: grant_tasks cloud_config rest
        | OpenStackProject _ _ _ => (user_group cloud_config, us) :: grant_tasks cloud_config rest
        end
  end.

(** [await asyncio.wait(tasks)]: every task runs to its end, and what it
    returned or raised stays in the task. The tasks are taken in the
    order of their creation. *)
Fixpoint wait_tasks {S} (launchpad : Launchpad S) (tasks : list (string * list User))
    (st : S) : S * list (result LaunchpadGroupChangeResult) :=
  match tasks with
  | [] => (st, [])
  | (grp, us) :: rest =>
      let '(st', outcome) := add_users_to_group launchpad grp us st in
      let '(st'', outcomes) := wait_tasks launchpad rest st' in
      (st'', outcome :: outcomes)
  end.

(** The part of [run] before the tasks are created: the configuration
    of the cloud and the resolved resource map. *)
Definition run_requirements `{StrHash} {S} (w : World S) (cloud : string)
    : result (CloudConfig * list (Resource * list User)) :=
  found ← find_cloud_config (world_conf w) (clouds (world_conf w)) cloud;
  match found with
  | None => Raise (Exception ("Unable to find configuration for cloud " ++ cloud)%string)
  | Some cloud_config =>
      access_result ← get_access_for_current_sprint (world_conf w) (world_jira w)
                        (cfg_name cloud_config);
      let resource_map := to_map access_result in
      resource_map' ← resolve_resources (world_conf w) (world_ldap w) resource_map resource_map;
      Ok (cloud_config, resource_map')
  end.

(** What a run leaves behind: the state of Launchpad, the outcome of each
    grant activity, and the value that [run] returns or the exception it
    raises. *)
Record RunReport (S : Type) : Type := {
  final_state : S;
  grant_outcomes : list (result LaunchpadGroupChangeResult);
  returned : result (Z * Z);
}.
Arguments final_state {S} _.
Arguments grant_outcomes {S} _.
Arguments returned {S} _.

(** [PartnerCloudGrantAccessWorkflow.run] *)
Definition run `{StrHash} {S} (w : World S) (project cloud : string) (st : S) : RunReport S :=
  match run_requirements w cloud with
  | Raise e => {| final_state := st; grant_outcomes := []; returned := Raise e |}
  | Ok (cloud_config, resource_map) =>
      let '(st', outcomes) :=
        wait_tasks (world_launchpad w) (grant_tasks cloud_config resource_map) st in
      {| final_state := st'; grant_outcomes := outcomes; returned := Ok (0, 0)%Z |}
  end.

(** The number of users that the grant outcomes of a run report as
    succeeded, and as failed. *)
Definition users_succeeded (outcomes : list (result LaunchpadGroupChangeResult)) : Z :=
  foldr (λ o n, match o with Ok r => (Z.of_nat (length (success r)) + n)%Z | Raise _ => n end)
        0%Z outcomes.

Definition users_failed (outcomes : list (result LaunchpadGroupChangeResult)) : Z :=
  foldr (λ o n, match o with Ok r => (Z.of_nat (length (failed r)) + n)%Z | Raise _ => n end)
        0%Z outcomes.

(** ** Vocabulary of the statements *)

(** The users that an outcome has an entry for. *)
Definition entry_users (r : LaunchpadGroupChangeResult) : list User :=
  success r ++ (failed r).*1.

(** A set of states of Launchpad that its operations do not leave and
    in which they return, or raise [KeyError] and nothing else. *)
Definition raises_only_KeyError {S} (launchpad : Launchpad S) (reachable : S → Prop) : Prop :=
  (∀ k st, reachable st →
     ∃ st', reachable st'
            ∧ (people launchpad k st = (st', Raise KeyError)
               ∨ ∃ p, people launchpad k st = (st', Ok p)))
  ∧ (∀ g p s st, reachable st →
       ∃ st', reachable st'
              ∧ (addMember launchpad g p s st = (st', Raise KeyError)
                 ∨ addMember launchpad g p s st = (st', Ok tt))).

(** A name that [launchpad.people] knows in every one of those states. *)
Definition always_found {S} (launchpad : Launchpad S) (reachable : S → Prop)
    (k : string) : Prop :=
  ∀ st, reachable st → ∃ st' p, people launchpad k st = (st', Ok p).

(** A user that no check of [add_users_to_group] rejects, in whichever
    of those states the service is: the user has a Launchpad id,
    Launchpad knows it as a valid person and as a member of the canonical
    team, and adding that person to the group succeeds where it is
    needed. *)
Definition passes_checks {S} (launchpad : Launchpad S) (reachable : S → Prop)
    (lp_group lp_canonical : LpPerson) (user : User) : Prop :=
  ∃ id, launchpad_id user = Some id ∧ id ≠ EmptyString ∧
    ∀ st, reachable st →
      ∃ st' lp_user,
        people launchpad id st = (st', Ok lp_user)
        ∧ is_valid lp_user = true
        ∧ (_check_memberships lp_user lp_canonical lp_group).1 = true
        ∧ ((_check_memberships lp_user lp_canonical lp_group).2 = true
           ∨ ∃ st'', addMember launchpad lp_group lp_user "Approved" st' = (st'', Ok tt)).

(** [resolve_users] past its two early returns: the statements that run
    when some user is not fully resolved, taken on their own. *)
Definition query_directory `{StrHash} (search_base : string) (ldap : LdapServer)
    (users : list User) : list LdapCall * result (list User) :=
  match ldap_bind ldap with
  | Raise e => ([Bind], except_LDAPException (Raise e))
  | Ok _ =>
      let filter_parameters := map get_filter_parameter users in
      let search_filter := search_filter_of filter_parameters in
      let calls := [Bind; Search search_base search_filter LDAP_ATTRIBUTES] in
      match ldap_search ldap search_base search_filter LDAP_ATTRIBUTES with
      | Raise e => (calls, except_LDAPException (Raise e))
      | Ok entries =>
          (calls,
           except_LDAPException
             (if bool_decide (entries = []) then
                Raise (Exception (no_results_msg search_base search_filter))
              else resolve_loop (index_entries entries) [] users))
      end
  end.

(** The infra node of a cloud, as [get_access_for_current_sprint]
    builds it. *)
Definition infra_node_of (CONF : Conf) (cloud : string) : Resource :=
  InfraNode (cloud ++ "-infra-node")%string (infra_node (cloud_section CONF cloud)).

(** The resource that a value of the integration layer of a ticket asks
    access for, if any. *)
Definition required_resource (cloud : string) (infra : Resource) (issue : Issue)
    (integration : string) : option Resource :=
  if bool_decide (integration = "Infrastructure") then Some infra
  else if bool_decide (integration = "Platform") then
    Some (OpenStackProject (lower (key issue)) None (Some cloud))
  else None.

(** A ticket that is not completed and has no pending prerequisite. *)
Definition actionable (CONF : Conf) (jira : JiraServer) (issue : Issue) : Prop :=
  is_issue_completed issue = false
  ∧ (get_pending_prerequisite_issues CONF jira issue = Ok None
     ∨ get_pending_prerequisite_issues CONF jira issue = Ok (Some [])).

(** The collaborators of a ticket: the linked ones, then the assignee. *)
Definition collaborator_set (issue : Issue) : result (list User) :=
  list_comprehension convert_user
    ((Some <$> default [] (collaborators issue)) ++ [assignee issue]).

(** An actionable ticket that asks access to [resource] for [us], its
    collaborators. *)
Definition contributes (CONF : Conf) (jira : JiraServer) (cloud : string) (infra : Resource)
    (issue : Issue) (resource : Resource) (us : list User) : Prop :=
  actionable CONF jira issue
  ∧ collaborator_set issue = Ok us
  ∧ ∃ integration, integration ∈ default [] (integration_layer issue)
                   ∧ required_resource cloud infra issue integration = Some resource.

(** A sequence of [resource_map[resource].update(users)] statements. *)
Definition apply_updates `{StrHash} (resource_map : list (Resource * list User))
    (updates : list (Resource * list User)) : list (Resource * list User) :=
  fold_left (λ m up, resource_map_update m up.1 up.2) updates resource_map.

(** A membership in the canonical team, and a membership that counts as
    being in the target group already. The loop of [_check_memberships]
    tests the canonical team first, so a membership in it is never taken
    for one in the target group. *)
Definition is_canonical_membership (canonical_group : LpPerson) (m : Membership) : bool :=
  bool_decide (team m = lp_name canonical_group).

Definition is_target_membership (canonical_group target_group : LpPerson)
    (m : Membership) : bool :=
  negb (bool_decide (team m = lp_name canonical_group))
  && bool_decide (team m = lp_name target_group)
  && bool_decide (status m ∈ ["Approved"; "Administrator"]).

(** The user that [resolve_users] builds from a directory record. *)
Definition user_of_entry (entry : LdapEntry) : User :=
  {| name := cn entry; email := mail entry; launchpad_id := launchpadId entry |}.

(** The value that identifies a user in its filter clause. *)
Definition identity_value (user : User) : string :=
  match email user, launchpad_id user with
  | Some e, _ => e
  | None, Some l => l
  | None, None => name user
  end.

(** A record that the loop of [resolve_users] can find for a user: one
    with the e-mail address of the user when the user has one, one with
    the name of the user otherwise. *)
Definition matches_lookup (user : User) (entry : LdapEntry) : bool :=
  match email user with
  | Some e => bool_decide (mail entry = Some e)
  | None => bool_decide (cn entry = name user)
  end.

(** The Launchpad group that the workflow grants for a resource. *)
Definition group_for (cloud_config : CloudConfig) (resource : Resource) : string :=
  match resource with
  | InfraNode _ _ => infra_group cloud_config
  | OpenStackProject _ _ _ => user_group cloud_config
  end.

(** ** A concrete deployment

    One cloud, three people, and simple stand-ins for the three remote
    services. They are the data on which the statements below are
    evaluated. *)

Module Example.

(** Some function from strings to integers. *)
Definition length_hash : StrHash := λ s, Z.of_nat (String.length s).

Definition ann : User :=
  {| name := "Ann Lee"; email := Some "ann@example.com"; launchpad_id := Some "ann-lee" |}.
Definition bob : User :=
  {| name := "Bob Roy"; email := Some "bob@example.com"; launchpad_id := Some "bob-roy" |}.
Definition cat : User :=
  {| name := "Cat Sun"; email := Some "cat@example.com"; launchpad_id := Some "cat-sun" |}.

(** The three people as a ticket names them. *)
Definition jira_ann : JiraUser :=
  {| displayName := "Ann Lee"; emailAddress := Some "ann@example.com" |}.
Definition jira_bob : JiraUser :=
  {| displayName := "Bob Roy"; emailAddress := Some "bob@example.com" |}.
Definition jira_cat : JiraUser :=
  {| displayName := "Cat Sun"; emailAddress := Some "cat@example.com" |}.

(** And as the directory records them. *)
Definition entry_of (u : User) : LdapEntry :=
  {| cn := name u; mail := email u; launchpadId := launchpad_id u |}.

(** A directory that answers every search with the same records. *)
Definition directory (entries : list LdapEntry) : LdapServer :=
  {| ldap_bind := Ok true; ldap_search := λ _ _ _, Ok entries |}.

(** A Jira server that answers every query with the same issues. *)
Definition tracker (issues : list Issue) : JiraServer :=
  {| search_issues := λ _, Ok issues |}.

Definition CONF : Conf :=
  {| clouds := ["PC5a"];
     cloud_section := λ _, {| cfg_name := "PC5a"; infra_group := "pc5a-infra";
                              user_group := "pc5a-users"; infra_node := "10.0.0.1" |};
     ldap_search_base := "ou=people,dc=example,dc=com";
     jira_project := "PACLOUD" |}.

(** A Launchpad that is a table of people and teams by name. *)
Definition lp_state : Type := list (string * LpPerson).

Fixpoint lp_find (st : lp_state) (k : string) : option LpPerson :=
  match st with
  | [] => None
  | (k', p) :: rest => if bool_decide (k = k') then Some p else lp_find rest k
  end.

Definition lp_join (g p : LpPerson) (s : string) (entry : string * LpPerson)
    : string * LpPerson :=
  if bool_decide (entry.1 = lp_name p) then
    (entry.1, {| lp_name := lp_name entry.2; is_valid := is_valid entry.2;
                 memberships_details :=
                   memberships_details entry.2 ++ [{| team := lp_name g; status := s |}] |})
  else entry.

Definition table_launchpad : Launchpad lp_state :=
  {| people := λ k st, (st, match lp_find st k with
                             | Some p => Ok p
                             | None => Raise KeyError
                             end);
     addMember := λ g p s st, (map (lp_join g p s) st, Ok tt) |}.

(** A Launchpad stub that answers from a fixed table and accepts every
    new member. *)
Definition canned_launchpad (table : lp_state) : Launchpad unit :=
  {| people := λ k st, (st, match lp_find table k with
                             | Some p => Ok p
                             | None => Raise KeyError
                             end);
     addMember := λ _ _ _ st, (st, Ok tt) |}.

Definition lp_team (n : string) : string * LpPerson :=
  (n, {| lp_name := n; is_valid := false; memberships_details := [] |}).

Definition lp_employee (n : string) : string * LpPerson :=
  (n, {| lp_name := n; is_valid := true;
         memberships_details := [{| team := "canonical"; status := "Approved" |}] |}).

Definition lp_initial : lp_state :=
  [lp_team "canonical"; lp_team "pc5a-infra"; lp_team "pc5a-users";
   lp_employee "ann-lee"; lp_employee "bob-roy"; lp_employee "cat-sun"].

(** Two open tickets that both ask for infrastructure access. *)
Definition ticket_41 : Issue :=
  {| key := "PACLOUD-41"; status_name := "In Progress";
     integration_layer := Some ["Infrastructure"];
     collaborators := Some [jira_ann]; assignee := Some jira_bob;
     issuelinks := None |}.

Definition ticket_42 : Issue :=
  {| key := "PACLOUD-42"; status_name := "In Progress";
     integration_layer := Some ["Infrastructure"; "Platform"];
     collaborators := Some [jira_cat]; assignee := Some jira_ann;
     issuelinks := Some [] |}.

(** An open ticket that nobody is assigned to. *)
Definition ticket_43 : Issue :=
  {| key := "PACLOUD-43"; status_name := "To Do";
     integration_layer := Some ["Platform"];
     collaborators := Some [jira_ann]; assignee := None;
     issuelinks := None |}.

(** A user known by a short name and a Launchpad id, and the record
    that the directory holds for that Launchpad id. *)
Definition jdoe : User :=
  {| name := "jdoe"; email := None; launchpad_id := Some "john-doe" |}.
Definition john_doe_entry : LdapEntry :=
  {| cn := "John Doe"; mail := Some "john@example.com"; launchpadId := Some "john-doe" |}.

(** Two users known by name and e-mail address; the directory has a
    record for the first one only. *)
Definition ann_from_ticket : User :=
  {| name := "Ann Lee"; email := Some "ann@example.com"; launchpad_id := None |}.
Definition dan_from_ticket : User :=
  {| name := "Dan Poe"; email := Some "dan@example.com"; launchpad_id := None |}.

Definition cat_from_ticket : User :=
  {| name := "Cat Sun"; email := Some "cat@example.com"; launchpad_id := None |}.

(** Bob as a user whose Launchpad id is not known. *)
Definition bob_without_id : User :=
  {| name := "Bob Roy"; email := Some "bob@example.com"; launchpad_id := None |}.

Definition world : World lp_state :=
  {| world_conf := CONF;
     world_jira := tracker [ticket_41; ticket_42];
     world_ldap := directory [entry_of ann; entry_of bob; entry_of cat];
     world_launchpad := table_launchpad |}.

(** More people for the Launchpad table: a member of the canonical team
    who is in a group already, and a valid person who is in no team. *)
Definition lp_member (n grp : string) : string * LpPerson :=
  (n, {| lp_name := n; is_valid := true;
         memberships_details := [{| team := "canonical"; status := "Approved" |};
                                 {| team := grp; status := "Administrator" |}] |}).

Definition lp_outsider (n : string) : string * LpPerson :=
  (n, {| lp_name := n; is_valid := true; memberships_details := [] |}).

(** A Launchpad stub that answers from a fixed table, except that it
    fails with an HTTP error on one name. *)
Definition failing_launchpad (table : lp_state) (bad : string) : Launchpad unit :=
  {| people := λ k st, (st, if bool_decide (k = bad) then Raise HTTPError
                            else match lp_find table k with
                                 | Some p => Ok p
                                 | None => Raise KeyError
                                 end);
     addMember := λ _ _ _ st, (st, Ok tt) |}.

(** A Launchpad stub that answers from a fixed table and knows nobody
    when it comes to adding a member. *)
Definition closed_launchpad (table : lp_state) : Launchpad unit :=
  {| people := λ k st, (st, match lp_find table k with
                             | Some p => Ok p
                             | None => Raise KeyError
                             end);
     addMember := λ _ _ _ st, (st, Raise KeyError) |}.

(** A completed ticket, and a ticket that waits for it. *)
Definition ticket_40 : Issue :=
  {| key := "PACLOUD-40"; status_name := "Done";
     integration_layer := Some ["Infrastructure"];
     collaborators := Some [jira_cat]; assignee := None;
     issuelinks := None |}.

Definition ticket_45 : Issue :=
  {| key := "PACLOUD-45"; status_name := "To Do";
     integration_layer := Some ["Platform"; "Application"];
     collaborators := None; assignee := Some jira_bob;
     issuelinks := Some [{| link_type_name := "Finish-to-Start (FS)";
                            inwardIssue := Some "PACLOUD-40" |};
                         {| link_type_name := "Relates"; inwardIssue := Some "PACLOUD-41" |}] |}.


(** Ann as an old record has her: every field set, two of them out of
    date. *)
Definition ann_stale : User :=
  {| name := "Ann L."; email := Some "ann@example.com"; launchpad_id := Some "ann-old" |}.

(** The states that [table_launchpad] reaches from a table: the same
    people under the same names, each with the memberships it had and
    possibly more after them. *)
Definition same_person_grown (e0 e : string * LpPerson) : Prop :=
  e.1 = e0.1
  ∧ lp_name e.2 = lp_name e0.2
  ∧ is_valid e.2 = is_valid e0.2
  ∧ memberships_details e0.2 `prefix_of` memberships_details e.2.

Definition grown_from (table st : lp_state) : Prop :=
  Forall2 same_person_grown table st.

End Example.

(** * Properties *)

(** ** Sets and dicts *)

Lemma User_eq_spec (u v : User) : User_eq u v = true ↔ u = v.
Proof.
  unfold User_eq. rewrite !andb_true_iff, !bool_decide_eq_true.
  destruct u, v; simpl. split.
  - intros [[-> ->] ->]. reflexivity.
  - intros [= -> -> ->]. auto.
Qed.

Lemma Resource_eq_spec (r1 r2 : Resource) : Resource_eq r1 r2 = true ↔ r1 = r2.
Proof.
  destruct r1, r2; simpl; rewrite ?andb_true_iff, ?bool_decide_eq_true;
    split; try congruence; try tauto.
  - intros [-> ->]. reflexivity.
  - intros [= -> ->]. auto.
  - intros [[-> ->] ->]. reflexivity.
  - intros [= -> -> ->]. auto.
Qed.

(** The hash of an object is a function of a field that [__eq__]
    compares, so the hash test never separates what [__eq__] identifies. *)
Lemma User_same_element `{StrHash} (u v : User) : same_element u v = true ↔ u = v.
Proof.
  unfold same_element. rewrite andb_true_iff. simpl. rewrite User_eq_spec. split.
  - tauto.
  - intros ->. split; [apply Z.eqb_refl | reflexivity].
Qed.

Lemma Resource_same_element `{StrHash} (r1 r2 : Resource) :
  same_element r1 r2 = true ↔ r1 = r2.
Proof.
  unfold same_element. rewrite andb_true_iff. simpl. rewrite Resource_eq_spec. split.
  - tauto.
  - intros ->. split; [apply Z.eqb_refl | reflexivity].
Qed.

Section ContainerFacts.
Context {A : Type} `{Hashable A}.
Hypothesis same_element_eq : ∀ x y : A, same_element x y = true ↔ x = y.

Lemma set_contains_elem_of (s : list A) (x : A) : set_contains s x = true ↔ x ∈ s.
Proof.
  unfold set_contains. rewrite existsb_exists. split.
  - intros (y & Hy & Hxy). apply same_element_eq in Hxy as ->.
    by apply list_elem_of_In.
  - intros Hx. exists x. split; [by apply list_elem_of_In | by apply same_element_eq].
Qed.

Lemma elem_of_set_add (s : list A) (x y : A) : y ∈ set_add s x ↔ y ∈ s ∨ y = x.
Proof.
  unfold set_add. destruct (set_contains s x) eqn:E.
  - apply set_contains_elem_of in E. split; [by left | by intros [?| ->]].
  - rewrite elem_of_app, list_elem_of_singleton. done.
Qed.

Lemma NoDup_set_add (s : list A) (x : A) : NoDup s → NoDup (set_add s x).
Proof.
  intros Hs. unfold set_add. destruct (set_contains s x) eqn:E; [done|].
  apply NoDup_app. split_and!; [done | | apply NoDup_singleton].
  intros y Hy ->%list_elem_of_singleton.
  apply set_contains_elem_of in Hy. congruence.
Qed.

Lemma elem_of_set_update (xs s : list A) (y : A) :
  y ∈ set_update s xs ↔ y ∈ s ∨ y ∈ xs.
Proof.
  unfold set_update. revert s. induction xs as [|x xs IH]; intros s; simpl.
  - rewrite elem_of_nil. tauto.
  - rewrite IH, elem_of_set_add, elem_of_cons. tauto.
Qed.

Lemma NoDup_set_update (xs s : list A) : NoDup s → NoDup (set_update s xs).
Proof.
  unfold set_update. revert s. induction xs as [|x xs IH]; intros s Hs; simpl; [done|].
  by apply IH, NoDup_set_add.
Qed.

Lemma set_update_NoDup (xs s : list A) : NoDup (s ++ xs) → set_update s xs = s ++ xs.
Proof.
  unfold set_update. revert s. induction xs as [|x xs IH]; intros s Hs; simpl.
  - by rewrite app_nil_r.
  - assert (set_add s x = s ++ [x]) as ->.
    { unfold set_add. destruct (set_contains s x) eqn:E; [|done].
      apply set_contains_elem_of in E. apply NoDup_app in Hs as (_ & Hs & _).
      exfalso. apply (Hs x E). by left. }
    rewrite IH; rewrite <- app_assoc; done.
Qed.

Lemma set_of_NoDup (xs : list A) : NoDup xs → set_of xs = xs.
Proof. intros Hxs. unfold set_of. by rewrite set_update_NoDup. Qed.

Lemma elem_of_set_of (xs : list A) (y : A) : y ∈ set_of xs ↔ y ∈ xs.
Proof. unfold set_of. rewrite elem_of_set_update, elem_of_nil. tauto. Qed.

Lemma NoDup_set_of (xs : list A) : NoDup (set_of xs).
Proof. apply NoDup_set_update, NoDup_nil_2. Qed.
End ContainerFacts.

Section DictFacts.
Context {A V : Type} `{Hashable A}.
Hypothesis same_element_eq : ∀ x y : A, same_element x y = true ↔ x = y.

Lemma same_element_refl (x : A) : same_element x x = true.
Proof. by apply same_element_eq. Qed.

Lemma same_element_ne (x y : A) : x ≠ y → same_element x y = false.
Proof.
  intros Hne. destruct (same_element x y) eqn:E; [|done].
  by apply same_element_eq in E.
Qed.

Lemma dict_get_Some_elem_of (d : list (A * V)) (k : A) (v : V) :
  dict_get d k = Some v → (k, v) ∈ d.
Proof.
  induction d as [|[k' v'] d IH]; simpl; [done|].
  destruct (same_element k k') eqn:E.
  - apply same_element_eq in E as ->. intros [= ->]. by left.
  - intros Hget. right. by apply IH.
Qed.

Lemma dict_get_None_keys (d : list (A * V)) (k : A) :
  dict_get d k = None ↔ k ∉ d.*1.
Proof.
  induction d as [|[k' v'] d IH]; simpl.
  - split; [intros _; apply not_elem_of_nil | done].
  - rewrite not_elem_of_cons. destruct (same_element k k') eqn:E.
    + apply same_element_eq in E as ->. split; [done | by intros [? _]].
    + rewrite IH. split; [|tauto]. intros Hk. split; [|done].
      intros ->. by rewrite same_element_refl in E.
Qed.

Lemma dict_get_is_Some_keys (d : list (A * V)) (k : A) :
  is_Some (dict_get d k) ↔ k ∈ d.*1.
Proof.
  destruct (dict_get d k) eqn:E.
  - split; [|by eauto]. intros _. apply dict_get_Some_elem_of in E.
    apply list_elem_of_fmap. by exists (k, v).
  - split; [by intros [? ?]|]. intros Hk. by apply dict_get_None_keys in E.
Qed.

Lemma dict_get_NoDup (d : list (A * V)) (k : A) (v : V) :
  NoDup d.*1 → (k, v) ∈ d → dict_get d k = Some v.
Proof.
  induction d as [|[k' v'] d IH]; simpl; intros Hnd Hin.
  - by apply elem_of_nil in Hin.
  - apply NoDup_cons in Hnd as [Hk' Hnd]. apply elem_of_cons in Hin as [[= -> ->]|Hin].
    + by rewrite same_element_refl.
    + rewrite same_element_ne; [by apply IH|].
      intros ->. apply Hk'. apply list_elem_of_fmap. by exists (k', v).
Qed.

Lemma dict_set_fresh (d : list (A * V)) (k : A) (v : V) :
  k ∉ d.*1 → dict_set d k v = d ++ [(k, v)].
Proof.
  induction d as [|[k' v'] d IH]; simpl; [done|].
  rewrite not_elem_of_cons. intros [Hne Hk].
  rewrite same_element_ne by done. by rewrite IH.
Qed.

Lemma dict_set_keys_present (d : list (A * V)) (k : A) (v : V) :
  k ∈ d.*1 → (dict_set d k v).*1 = d.*1.
Proof.
  induction d as [|[k' v'] d IH]; simpl; intros Hk.
  - by apply elem_of_nil in Hk.
  - destruct (same_element k k') eqn:E; [done|]. simpl. f_equal. apply IH.
    apply elem_of_cons in Hk as [->|Hk]; [|done].
    by rewrite same_element_refl in E.
Qed.

Lemma elem_of_dict_set_keys (d : list (A * V)) (k k' : A) (v : V) :
  k' ∈ (dict_set d k v).*1 ↔ k' ∈ d.*1 ∨ k' = k.
Proof.
  destruct (dict_get d k) eqn:E.
  - assert (k ∈ d.*1) as Hk by (apply dict_get_is_Some_keys; eauto).
    rewrite dict_set_keys_present by done. split; [by left | by intros [?| ->]].
  - apply dict_get_None_keys in E. rewrite dict_set_fresh by done.
    rewrite fmap_app, elem_of_app. simpl. by rewrite list_elem_of_singleton.
Qed.

Lemma NoDup_dict_set_keys (d : list (A * V)) (k : A) (v : V) :
  NoDup d.*1 → NoDup (dict_set d k v).*1.
Proof.
  intros Hnd. destruct (dict_get d k) eqn:E.
  - rewrite dict_set_keys_present; [done|]. apply dict_get_is_Some_keys; eauto.
  - apply dict_get_None_keys in E. rewrite dict_set_fresh by done.
    rewrite fmap_app. apply NoDup_app. split_and!; [done | | apply NoDup_singleton].
    intros x Hx ->%list_elem_of_singleton. done.
Qed.

Lemma dict_get_set_eq (d : list (A * V)) (k : A) (v : V) :
  dict_get (dict_set d k v) k = Some v.
Proof.
  induction d as [|[k' v'] d IH]; simpl.
  - by rewrite same_element_refl.
  - destruct (same_element k k') eqn:E; simpl; by rewrite E.
Qed.

Lemma dict_get_set_ne (d : list (A * V)) (k k' : A) (v : V) :
  k' ≠ k → dict_get (dict_set d k v) k' = dict_get d k'.
Proof.
  intros Hne. induction d as [|[k'' v''] d IH]; simpl.
  - by rewrite same_element_ne.
  - destruct (same_element k k'') eqn:E; simpl.
    + apply same_element_eq in E as ->. by rewrite !same_element_ne.
    + by rewrite IH.
Qed.
End DictFacts.

(** ** objects.py: identity of users in a set *)

(** C3, as the code has it. Two users with equal names have equal hashes,
    but they are one and the same element of a set only if their e-mail
    addresses and their Launchpad ids are equal too: membership goes by
    the hash and then by [__eq__], which compares every field. *)
Theorem user_set_identity `{StrHash} (u v : User) :
  name u = name v →
  py_hash u = py_hash v
  ∧ (same_element u v = true ↔ email u = email v ∧ launchpad_id u = launchpad_id v).
Proof.
  intros Hname. split.
  - simpl. unfold Object_hash. by rewrite Hname.
  - rewrite User_same_element. destruct u, v; simpl in *. subst. split.
    + intros [= -> ->]. auto.
    + intros [-> ->]. reflexivity.
Qed.

Lemma user_set_identity_witness :
  name Example.ann = name Example.ann_from_ticket
  ∧ @py_hash _ (@User_hashable Example.length_hash) Example.ann
    = @py_hash _ (@User_hashable Example.length_hash) Example.ann_from_ticket
  ∧ (@same_element _ (@User_hashable Example.length_hash) Example.ann Example.ann_from_ticket
     = true
     ↔ email Example.ann = email Example.ann_from_ticket
       ∧ launchpad_id Example.ann = launchpad_id Example.ann_from_ticket).
Proof.
  split; [reflexivity|].
  apply (@user_set_identity Example.length_hash Example.ann Example.ann_from_ticket).
  reflexivity.
Defined.

(** C3 as stated does not hold: whatever the string hash, a set built
    from two users that share a name and differ in their e-mail address
    has two elements. *)
Lemma user_set_identity_by_name_fails :
  ¬ (∀ (h : StrHash) (u v : User), name u = name v → same_element u v = true)
  ∧ ∀ h : StrHash,
      @set_of _ (@User_hashable h)
        [ {| name := "Ann Lee"; email := Some "ann@example.com"; launchpad_id := None |};
          {| name := "Ann Lee"; email := None; launchpad_id := None |} ]
      = [ {| name := "Ann Lee"; email := Some "ann@example.com"; launchpad_id := None |};
          {| name := "Ann Lee"; email := None; launchpad_id := None |} ].
Proof.
  split.
  - intros Hclaim.
    specialize (Hclaim Example.length_hash
      {| name := "Ann Lee"; email := Some "ann@example.com"; launchpad_id := None |}
      {| name := "Ann Lee"; email := None; launchpad_id := None |} eq_refl).
    vm_compute in Hclaim. discriminate.
  - intros h. apply (set_of_NoDup User_same_element).
    apply NoDup_cons. split; [|apply NoDup_singleton].
    intros Hin%list_elem_of_singleton. discriminate.
Qed.

(** ** activities/launchpad.py: the result object *)

(** C10. [has_failures] answers [True] exactly when no failure has been
    recorded, and [False] as soon as one has been. *)
Theorem has_failures_inverted (r : LaunchpadGroupChangeResult) :
  (has_failures r = true ↔ failed r = [])
  ∧ (has_failures r = false ↔ failed r ≠ [])
  ∧ ∀ (user : User) (reason : string), has_failures (add_failure r user reason) = false.
Proof.
  unfold has_failures. split_and!.
  - rewrite bool_decide_eq_true. apply length_zero_iff_nil.
  - rewrite bool_decide_eq_false. by rewrite length_zero_iff_nil.
  - intros user reason. apply bool_decide_eq_false. simpl.
    rewrite length_app. simpl. lia.
Qed.

(** ** activities/ldap.py: the reconciler *)

Lemma is_fully_resolved_spec (u : User) :
  is_fully_resolved u = true ↔ is_Some (email u) ∧ is_Some (launchpad_id u).
Proof.
  unfold is_fully_resolved.
  rewrite andb_true_r, andb_true_iff, !bool_decide_eq_true, <- !not_eq_None_Some. done.
Qed.

(** The statements past the early returns are what [resolve_users] runs
    as soon as some user is not fully resolved. *)
Lemma resolve_users_query_directory `{StrHash} (search_base : string) (ldap : LdapServer)
    (users : list User) :
  forallb is_fully_resolved users = false →
  resolve_users search_base ldap users = query_directory search_base ldap users.
Proof.
  intros Hall. unfold resolve_users, query_directory.
  case_bool_decide as Hnil; [by subst|]. by rewrite Hall.
Qed.

(** The loop over users whose records are the users themselves returns
    the users it was given. *)
Lemma resolve_loop_up_to_date `{StrHash} (results_map : results_index)
    (users resolved_users : list User) :
  (∀ u, u ∈ users →
        ∃ e, lookup_result results_map u = Some e ∧ user_of_entry e = u) →
  resolve_loop results_map resolved_users users = Ok (set_update resolved_users users).
Proof.
  revert resolved_users. induction users as [|user rest IH]; intros acc Hup; [done|].
  simpl. unfold resolve_user at 1.
  destruct (Hup user) as (e & -> & He); [by left|].
  fold (user_of_entry e). rewrite He. simpl.
  apply IH. intros u Hu. apply Hup. by right.
Qed.

(** C7, as the code has it. When every user given is fully resolved,
    [resolve_users] sends nothing to the directory and returns the set of
    the users given: the same elements, and the very same collection when
    the input is a set. That is what the statements past the early return
    would have returned when the directory has, for every user, a record
    that carries exactly the name, the e-mail address and the Launchpad
    id of the user; nothing is said of the other case. *)
Theorem resolve_users_fast_path `{StrHash} (search_base : string) (ldap : LdapServer)
    (users : list User) :
  (∀ u, u ∈ users → is_Some (email u) ∧ is_Some (launchpad_id u)) →
  resolve_users search_base ldap users = ([], Ok (set_of users))
  ∧ (∀ u, u ∈ set_of users ↔ u ∈ users)
  ∧ (NoDup users → set_of users = users)
  ∧ ∀ (bound : bool) (entries : list LdapEntry),
      ldap_bind ldap = Ok bound →
      ldap_search ldap search_base (search_filter_of (map get_filter_parameter users))
        LDAP_ATTRIBUTES = Ok entries →
      entries ≠ [] →
      (∀ u, u ∈ users →
            ∃ e, lookup_result (index_entries entries) u = Some e ∧ user_of_entry e = u) →
      (query_directory search_base ldap users).2
      = (resolve_users search_base ldap users).2.
Proof.
  intros Hall.
  assert (resolve_users search_base ldap users = ([], Ok (set_of users))) as Hfast.
  { unfold resolve_users. case_bool_decide as Hnil; [by subst|].
    assert (forallb is_fully_resolved users = true) as ->; [|done].
    apply forallb_forall. intros u Hu%list_elem_of_In.
    by apply is_fully_resolved_spec, Hall. }
  split_and!.
  - done.
  - intros u. apply (elem_of_set_of User_same_element).
  - apply (set_of_NoDup User_same_element).
  - intros bound entries Hbind Hsearch Hentries Hup. rewrite Hfast.
    unfold query_directory. rewrite Hbind, Hsearch. simpl.
    rewrite bool_decide_eq_false_2 by done.
    by rewrite resolve_loop_up_to_date.
Qed.

Lemma resolve_users_fast_path_witness :
  let ldap := Example.directory [Example.entry_of Example.ann; Example.entry_of Example.bob] in
  (∀ u, u ∈ [Example.ann; Example.bob] → is_Some (email u) ∧ is_Some (launchpad_id u))
  ∧ @resolve_users Example.length_hash "ou=people" ldap [Example.ann; Example.bob]
    = ([], Ok [Example.ann; Example.bob])
  ∧ (∀ u, u ∈ [Example.ann; Example.bob] →
          ∃ e, lookup_result
                 (index_entries [Example.entry_of Example.ann; Example.entry_of Example.bob]) u
               = Some e ∧ user_of_entry e = u)
  ∧ (@query_directory Example.length_hash "ou=people" ldap [Example.ann; Example.bob]).2
    = (@resolve_users Example.length_hash "ou=people" ldap [Example.ann; Example.bob]).2.
Proof.
  intros ldap.
  assert (∀ u, u ∈ [Example.ann; Example.bob] → is_Some (email u) ∧ is_Some (launchpad_id u))
    as Hall.
  { intros u Hu. apply elem_of_cons in Hu as [->|Hu].
    - split; eexists; reflexivity.
    - apply list_elem_of_singleton in Hu as ->. split; eexists; reflexivity. }
  assert (∀ u, u ∈ [Example.ann; Example.bob] →
            ∃ e, lookup_result
                   (index_entries [Example.entry_of Example.ann; Example.entry_of Example.bob]) u
                 = Some e ∧ user_of_entry e = u) as Hup.
  { intros u Hu. apply elem_of_cons in Hu as [->|Hu].
    - exists (Example.entry_of Example.ann). by vm_compute.
    - apply list_elem_of_singleton in Hu as ->.
      exists (Example.entry_of Example.bob). by vm_compute. }
  pose proof (@resolve_users_fast_path Example.length_hash "ou=people" ldap
                [Example.ann; Example.bob] Hall) as (Hfast & _ & _ & Hsame).
  split; [exact Hall|]. split; [exact Hfast|]. split; [exact Hup|].
  exact (Hsame true [Example.entry_of Example.ann; Example.entry_of Example.bob]
           eq_refl eq_refl ltac:(discriminate) Hup).
Defined.

(** C7 as stated does not hold in its last clause: the early return is
    not transparent. For a fully resolved user whose name and Launchpad
    id are out of date, it returns the user as given, with no request;
    the statements past it would have returned the record of the
    directory instead, and they do so for the same user as soon as the
    batch holds another user that is not fully resolved. *)
Lemma resolve_users_fast_path_not_transparent :
  let ldap := Example.directory [Example.entry_of Example.ann; Example.entry_of Example.bob] in
  is_fully_resolved Example.ann_stale = true
  ∧ @resolve_users Example.length_hash "ou=people" ldap [Example.ann_stale]
    = ([], Ok [Example.ann_stale])
  ∧ (@query_directory Example.length_hash "ou=people" ldap [Example.ann_stale]).2
    = Ok [Example.ann]
  ∧ (@resolve_users Example.length_hash "ou=people" ldap
       [Example.ann_stale; Example.bob_without_id]).2
    = Ok [Example.ann; Example.bob]
  ∧ Example.ann_stale ≠ Example.ann.
Proof. vm_compute. split_and!; try reflexivity. discriminate. Qed.

(** C8. When some user given is not fully resolved and the one combined
    search finds no record at all, [resolve_users] raises: it returns
    neither an empty nor a partial set. The exception is the built-in
    [Exception] carrying the search base and the filter, the directory
    failure of the specification. *)
Theorem resolve_users_no_results `{StrHash} (search_base : string) (ldap : LdapServer)
    (users : list User) (bound : bool) :
  let search_filter := search_filter_of (map get_filter_parameter users) in
  (∃ u, u ∈ users ∧ is_fully_resolved u = false) →
  ldap_bind ldap = Ok bound →
  ldap_search ldap search_base search_filter LDAP_ATTRIBUTES = Ok [] →
  resolve_users search_base ldap users
  = ([Bind; Search search_base search_filter LDAP_ATTRIBUTES],
     Raise (Exception (no_results_msg search_base search_filter))).
Proof.
  intros search_filter (u & Hu & Hpartial) Hbind Hsearch.
  unfold resolve_users. case_bool_decide as Hnil.
  { subst. by apply elem_of_nil in Hu. }
  destruct (forallb is_fully_resolved users) eqn:Hall.
  { rewrite forallb_forall in Hall. apply list_elem_of_In, Hall in Hu. congruence. }
  rewrite Hbind. fold search_filter. rewrite Hsearch. reflexivity.
Qed.

Lemma resolve_users_no_results_witness :
  (∃ u, u ∈ [Example.ann; Example.dan_from_ticket] ∧ is_fully_resolved u = false)
  ∧ ldap_bind (Example.directory []) = Ok true
  ∧ (@resolve_users Example.length_hash "ou=people" (Example.directory [])
       [Example.ann; Example.dan_from_ticket]).2
    = Raise (Exception (no_results_msg "ou=people"
               (search_filter_of ["(mail=ann@example.com)"; "(mail=dan@example.com)"]))).
Proof.
  assert (∃ u, u ∈ [Example.ann; Example.dan_from_ticket] ∧ is_fully_resolved u = false)
    as Hsome.
  { exists Example.dan_from_ticket. split; [|reflexivity]. apply elem_of_cons. right.
    apply list_elem_of_singleton. reflexivity. }
  split; [exact Hsome|]. split; [reflexivity|].
  rewrite (@resolve_users_no_results Example.length_hash "ou=people" (Example.directory [])
             [Example.ann; Example.dan_from_ticket] true Hsome eq_refl eq_refl).
  reflexivity.
Defined.

(** Which index the loop of [resolve_users] consults: the one by e-mail
    address when the user has one, the one by name otherwise. The branch
    for the Launchpad id is never taken. *)
Lemma lookup_result_index (results_map : results_index) (user : User) :
  lookup_result results_map user
  = match email user with
    | Some e => (results_map !!! ATTR_MAIL) !! Some e
    | None => (results_map !!! ATTR_CN) !! Some (name user)
    end.
Proof.
  unfold lookup_result, get_identity_attribute.
  destruct (email user) as [e|]; [reflexivity|].
  destruct (launchpad_id user); reflexivity.
Qed.

(** C2 at a user that has a Launchpad id and no e-mail address. Its
    filter clause asks for the Launchpad id, and the index by Launchpad
    id holds the record that the directory returns for it; the loop looks
    the user up by name instead, finds nothing, and the activity raises. *)
Theorem resolve_users_skips_launchpad_id_index :
  let results_map := index_entries [Example.john_doe_entry] in
  get_identity_attribute Example.jdoe = ATTR_LAUNCHPAD_ID
  ∧ get_filter_parameter Example.jdoe = "(launchpadId=john-doe)"
  ∧ (results_map !!! ATTR_LAUNCHPAD_ID) !! launchpad_id Example.jdoe
    = Some Example.john_doe_entry
  ∧ lookup_result results_map Example.jdoe = (results_map !!! ATTR_CN) !! Some "jdoe"
  ∧ lookup_result results_map Example.jdoe = None
  ∧ (@resolve_users Example.length_hash "ou=people"
       (Example.directory [Example.john_doe_entry]) [Example.jdoe]).2
    = Raise (AttributeError "'NoneType' object has no attribute 'cn'").
Proof. vm_compute. repeat split. Qed.

(** A user without a record among those found makes the loop raise,
    whatever the other users are. *)
Lemma resolve_loop_unmatched `{StrHash} (results_map : results_index)
    (users resolved_users : list User) :
  (∃ u, u ∈ users ∧ lookup_result results_map u = None) →
  resolve_loop results_map resolved_users users
  = Raise (AttributeError "'NoneType' object has no attribute 'cn'").
Proof.
  revert resolved_users. induction users as [|user rest IH]; intros acc (u & Hu & Hnone).
  - by apply elem_of_nil in Hu.
  - simpl. unfold resolve_user at 1.
    destruct (lookup_result results_map user) as [r|] eqn:Hlook; [|reflexivity].
    simpl. apply IH. exists u. split; [|done].
    apply elem_of_cons in Hu as [->|Hu]; [congruence | done].
Qed.

(** When the search has returned records and some user given has none
    among them, as the loop looks users up, the activity raises the
    attribute error of the [None] result: it returns no set, not even
    for the users that have a record. *)
Lemma resolve_users_unmatched `{StrHash} (search_base : string) (ldap : LdapServer)
    (users : list User) (bound : bool) (entries : list LdapEntry) :
  let search_filter := search_filter_of (map get_filter_parameter users) in
  forallb is_fully_resolved users = false →
  ldap_bind ldap = Ok bound →
  ldap_search ldap search_base search_filter LDAP_ATTRIBUTES = Ok entries →
  entries ≠ [] →
  (∃ u, u ∈ users ∧ lookup_result (index_entries entries) u = None) →
  (resolve_users search_base ldap users).2
  = Raise (AttributeError "'NoneType' object has no attribute 'cn'").
Proof.
  intros search_filter Hall Hbind Hsearch Hentries Hunmatched.
  unfold resolve_users. case_bool_decide as Hnil.
  { subst. destruct Hunmatched as (u & Hu & _). by apply elem_of_nil in Hu. }
  rewrite Hall, Hbind. fold search_filter. rewrite Hsearch. simpl.
  case_bool_decide; [done|].
  by rewrite resolve_loop_unmatched.
Qed.

(** C9 at two users of whom the directory knows the first only. The
    search returns a record, so the result set is not empty; the second
    user has no record in it, and the whole activity raises instead of
    returning a set. *)
Theorem resolve_users_unmatched_user_raises :
  let users := [Example.ann_from_ticket; Example.dan_from_ticket] in
  let ldap := Example.directory [Example.entry_of Example.ann] in
  ldap_search ldap "ou=people" (search_filter_of (map get_filter_parameter users))
    LDAP_ATTRIBUTES = Ok [Example.entry_of Example.ann]
  ∧ lookup_result (index_entries [Example.entry_of Example.ann]) Example.ann_from_ticket
    = Some (Example.entry_of Example.ann)
  ∧ lookup_result (index_entries [Example.entry_of Example.ann]) Example.dan_from_ticket
    = None
  ∧ (@resolve_users Example.length_hash "ou=people" ldap users).2
    = Raise (AttributeError "'NoneType' object has no attribute 'cn'").
Proof. vm_compute. repeat split. Qed.

(** ** activities/launchpad.py: the grantor *)

(** The loop of [_check_memberships] as a plain scan of the memberships. *)
Lemma check_memberships_loop_scan (canonical_group target_group : LpPerson)
    (memberships : list Membership) (is_employee already_in_group : bool) :
  check_memberships_loop canonical_group target_group memberships is_employee already_in_group
  = (is_employee || existsb (is_canonical_membership canonical_group) memberships,
     already_in_group
     || existsb (is_target_membership canonical_group target_group) memberships).
Proof.
  revert is_employee already_in_group.
  induction memberships as [|m rest IH]; intros is_employee already_in_group; simpl.
  - by rewrite !orb_false_r.
  - unfold is_canonical_membership at 1, is_target_membership at 1.
    destruct (bool_decide (team m = lp_name canonical_group)); simpl.
    + destruct already_in_group; simpl.
      * by rewrite orb_true_r.
      * rewrite IH. simpl. by rewrite orb_true_r.
    + destruct (bool_decide (team m = lp_name target_group)
                && bool_decide (status m ∈ ["Approved"; "Administrator"])); simpl.
      * destruct is_employee; simpl.
        -- by rewrite orb_true_r.
        -- rewrite IH. simpl. by rewrite orb_true_r.
      * by rewrite IH.
Qed.

(** What one turn of the loop does when nothing but [KeyError] can be
    raised: it returns, and it has added one entry, for this user. *)
Lemma add_user_to_group_entry {S} (launchpad : Launchpad S) (reachable : S → Prop)
    (lp_group lp_canonical : LpPerson) (result_ : LaunchpadGroupChangeResult)
    (user : User) (st : S) :
  raises_only_KeyError launchpad reachable →
  reachable st →
  ∃ st' r, add_user_to_group launchpad lp_group lp_canonical result_ user st = (st', Ok r)
    ∧ reachable st'
    ∧ (r = add_success result_ user ∨ ∃ reason, r = add_failure result_ user reason)
    ∧ (truthy (launchpad_id user) = false → r = add_failure result_ user "no launchpad id").
Proof.
  intros [Hpeople Hadd] Hst. unfold add_user_to_group, except_KeyError.
  destruct (truthy (launchpad_id user)) eqn:Hid; simpl.
  2:{ eexists _, _. split; [reflexivity|]. split_and!; [done | right; by eexists | done]. }
  unfold lp_bind at 1.
  destruct (Hpeople (default EmptyString (launchpad_id user)) st Hst)
    as (st1 & Hst1 & [Hp|(p & Hp)]); rewrite Hp.
  { eexists _, _. split; [reflexivity|]. split_and!; [done | right; by eexists | done]. }
  destruct (is_valid p); simpl.
  2:{ eexists _, _. split; [reflexivity|]. split_and!; [done | right; by eexists | done]. }
  destruct (_check_memberships p lp_canonical lp_group) as [is_employee in_group].
  destruct is_employee; simpl.
  2:{ eexists _, _. split; [reflexivity|]. split_and!; [done | right; by eexists | done]. }
  destruct in_group; simpl.
  { eexists _, _. split; [reflexivity|]. split_and!; [done | by left | done]. }
  unfold lp_bind.
  destruct (Hadd lp_group p "Approved" st1 Hst1) as (st2 & Hst2 & [Ha|Ha]); rewrite Ha.
  - eexists _, _. split; [reflexivity|]. split_and!; [done | right; by eexists | done].
  - eexists _, _. split; [reflexivity|]. split_and!; [done | by left | done].
Qed.

Lemma add_users_loop_entries {S} (launchpad : Launchpad S) (reachable : S → Prop)
    (lp_group lp_canonical : LpPerson) (users : list User)
    (result_ : LaunchpadGroupChangeResult) (st : S) :
  raises_only_KeyError launchpad reachable →
  reachable st →
  ∃ st' r, add_users_loop launchpad lp_group lp_canonical result_ users st = (st', Ok r)
    ∧ group r = group result_
    ∧ entry_users r ≡ₚ entry_users result_ ++ users
    ∧ (∀ u, u ∈ users → truthy (launchpad_id u) = false →
            (u, "no launchpad id") ∈ failed r)
    ∧ (∀ e, e ∈ failed result_ → e ∈ failed r).
Proof.
  intros Hlp. revert result_ st.
  induction users as [|user rest IH]; intros result_ st Hst; simpl.
  - eexists _, _. split; [reflexivity|]. rewrite app_nil_r. split_and!; try done.
    intros u Hu. by apply elem_of_nil in Hu.
  - unfold lp_bind.
    destruct (add_user_to_group_entry launchpad reachable lp_group lp_canonical result_
                user st Hlp Hst) as (st1 & r1 & -> & Hst1 & Hr1 & Hfalsy).
    destruct (IH r1 st1 Hst1) as (st2 & r2 & -> & Hgroup & Hperm & Hnoid & Hkeep).
    eexists _, _. split; [reflexivity|].
    assert (group r1 = group result_ ∧ entry_users r1 ≡ₚ entry_users result_ ++ [user]
            ∧ ∀ e, e ∈ failed result_ → e ∈ failed r1) as (Hg1 & Hp1 & Hk1).
    { destruct Hr1 as [->|(reason & ->)]; unfold entry_users; simpl.
      - split_and!; [done | | done].
        rewrite <- !app_assoc. apply Permutation_app_head, Permutation_app_comm.
      - split_and!; [done | | intros e He; apply elem_of_app; by left].
        rewrite fmap_app. simpl. by rewrite <- !app_assoc. }
    split_and!.
    + congruence.
    + rewrite Hperm, Hp1, <- app_assoc. done.
    + intros u [->|Hu]%elem_of_cons Hid; [|by apply Hnoid].
      apply Hkeep. rewrite (Hfalsy Hid). simpl. apply elem_of_app. right.
      by apply list_elem_of_singleton.
    + intros e He. by apply Hkeep, Hk1.
Qed.

(** A turn of the loop for a user that passes every check. *)
Lemma add_user_to_group_passes {S} (launchpad : Launchpad S) (reachable : S → Prop)
    (lp_group lp_canonical : LpPerson) (result_ : LaunchpadGroupChangeResult)
    (user : User) (st : S) :
  raises_only_KeyError launchpad reachable →
  reachable st →
  passes_checks launchpad reachable lp_group lp_canonical user →
  ∃ st', add_user_to_group launchpad lp_group lp_canonical result_ user st
         = (st', Ok (add_success result_ user))
         ∧ reachable st'.
Proof.
  intros [Hpeople Hadd] Hst (id & Hid & Hne & Hchecks).
  destruct (Hchecks st Hst) as (st1 & p & Hp & Hvalid & Hemp & Hin).
  assert (reachable st1) as Hst1.
  { destruct (Hpeople id st Hst) as (st0 & Hst0 & [H0|(p0 & H0)]); congruence. }
  unfold add_user_to_group, except_KeyError. rewrite Hid. simpl.
  rewrite bool_decide_eq_false_2 by done. simpl.
  unfold lp_bind at 1. rewrite Hp, Hvalid. simpl.
  destruct (_check_memberships p lp_canonical lp_group) as [is_employee in_group].
  simpl in Hemp, Hin. subst is_employee. simpl.
  destruct in_group; simpl.
  - by eexists.
  - destruct Hin as [?|(st2 & Ha)]; [done|]. unfold lp_bind. rewrite Ha.
    exists st2. split; [done|].
    destruct (Hadd lp_group p "Approved" st1 Hst1) as (st0 & Hst0 & [H0|H0]); congruence.
Qed.

(** C5, with its conditions and with the reason as the code words it.
    Take a Launchpad and a set of states of it that its operations do
    not leave and in which they raise nothing but [KeyError], and in
    which the group and the canonical team are known. From such a state
    [add_users_to_group] returns an outcome for the group given, in which
    every user given has one entry, whatever happened to the users before
    it, and in which a user without a Launchpad id is a failure with the
    reason [no launchpad id]. For three users of whom only the second has
    no Launchpad id and the other two pass every check, the outcome is
    the two successes, in their order, and that one failure. *)
Theorem add_users_to_group_isolates_failures {S} (launchpad : Launchpad S) (grp : string)
    (reachable : S → Prop) (st : S) :
  raises_only_KeyError launchpad reachable →
  always_found launchpad reachable grp →
  always_found launchpad reachable "canonical" →
  reachable st →
  (∀ users : list User,
     ∃ st' r, add_users_to_group launchpad grp users st = (st', Ok r)
       ∧ group r = grp
       ∧ entry_users r ≡ₚ users
       ∧ ∀ u, u ∈ users → truthy (launchpad_id u) = false →
              (u, "no launchpad id") ∈ failed r)
  ∧ (∀ (u1 u2 u3 : User) (st1 st2 : S) (lp_group lp_canonical : LpPerson),
       people launchpad grp st = (st1, Ok lp_group) →
       people launchpad "canonical" st1 = (st2, Ok lp_canonical) →
       passes_checks launchpad reachable lp_group lp_canonical u1 →
       truthy (launchpad_id u2) = false →
       passes_checks launchpad reachable lp_group lp_canonical u3 →
       ∃ st', add_users_to_group launchpad grp [u1; u2; u3] st
              = (st', Ok {| group := grp; success := [u1; u3];
                            failed := [(u2, "no launchpad id")] |})).
Proof.
  intros Hlp Hgroup Hcanonical Hst.
  assert (∀ k st0 st1 p, reachable st0 → people launchpad k st0 = (st1, Ok p) → reachable st1)
    as Hkeep.
  { intros k st0 st1 p Hst0 Hp.
    destruct (proj1 Hlp k st0 Hst0) as (st' & Hst' & [H0|(p0 & H0)]); congruence. }
  split.
  - intros users. unfold add_users_to_group, lp_bind.
    destruct (Hgroup st Hst) as (st1 & g & Hg). rewrite Hg.
    destruct (Hcanonical st1 (Hkeep _ _ _ _ Hst Hg)) as (st2 & c & Hc). rewrite Hc.
    destruct (add_users_loop_entries launchpad reachable g c users
                {| group := grp; success := []; failed := [] |} st2 Hlp)
      as (st3 & r & -> & Hgr & Hperm & Hnoid & _).
    { eapply Hkeep; [|exact Hc]. by eapply Hkeep. }
    eexists _, _. split; [reflexivity|]. done.
  - intros u1 u2 u3 st1 st2 g c Hg Hc H1 H2 H3.
    assert (reachable st2) as Hst2.
    { eapply Hkeep; [|exact Hc]. by eapply Hkeep. }
    unfold add_users_to_group, lp_bind. rewrite Hg, Hc. simpl. unfold lp_bind.
    destruct (add_user_to_group_passes launchpad reachable g c
                {| group := grp; success := []; failed := [] |} u1 st2 Hlp Hst2 H1)
      as (st3 & -> & Hst3).
    unfold add_user_to_group at 1, except_KeyError. rewrite H2. simpl.
    destruct (add_user_to_group_passes launchpad reachable g c
                (add_failure (add_success {| group := grp; success := []; failed := [] |} u1)
                   u2 "no launchpad id") u3 st3 Hlp Hst3 H3) as (st4 & -> & _).
    by eexists.
Qed.

(** The states that [Example.table_launchpad] reaches from a table are
    grown from it, and what was true of a person stays true. *)
Lemma grown_from_refl (table : Example.lp_state) : Example.grown_from table table.
Proof.
  unfold Example.grown_from. induction table as [|e table IH]; constructor; [|done].
  by split_and!.
Qed.

Lemma grown_from_join (table st : Example.lp_state) (g p : LpPerson) (s : string) :
  Example.grown_from table st → Example.grown_from table (map (Example.lp_join g p s) st).
Proof.
  unfold Example.grown_from. induction 1 as [|e0 e table st (Hk & Hn & Hv & Hm) _ IH]; simpl;
    constructor; [|done].
  unfold Example.lp_join. case_bool_decide; [|by split_and!].
  simpl. split_and!; [done | done | done |]. by apply prefix_app_r.
Qed.

Lemma grown_from_find (table st : Example.lp_state) (k : string) (p0 : LpPerson) :
  Example.grown_from table st →
  Example.lp_find table k = Some p0 →
  ∃ p, Example.lp_find st k = Some p
       ∧ is_valid p = is_valid p0
       ∧ memberships_details p0 `prefix_of` memberships_details p.
Proof.
  unfold Example.grown_from.
  induction 1 as [|[k0 q0] [k1 q] table st (Hk & Hn & Hv & Hm) _ IH]; simpl; [done|].
  simpl in *. subst k1. case_bool_decide.
  - intros [= <-]. by exists q.
  - done.
Qed.

Lemma table_launchpad_raises_only_KeyError (table : Example.lp_state) :
  raises_only_KeyError Example.table_launchpad (Example.grown_from table).
Proof.
  split.
  - intros k st Hst. exists st. split; [done|]. simpl.
    destruct (Example.lp_find st k) as [p|]; [right; by exists p | by left].
  - intros g p s st Hst. eexists. split; [by apply grown_from_join|]. by right.
Qed.

Lemma table_launchpad_always_found (table : Example.lp_state) (k : string) (p0 : LpPerson) :
  Example.lp_find table k = Some p0 →
  always_found Example.table_launchpad (Example.grown_from table) k.
Proof.
  intros Hk st Hst. destruct (grown_from_find table st k p0 Hst Hk) as (p & Hp & _).
  exists st, p. simpl. by rewrite Hp.
Qed.

Lemma table_launchpad_passes_checks (table : Example.lp_state) (lp_group lp_canonical : LpPerson)
    (user : User) (id : string) (p0 : LpPerson) :
  launchpad_id user = Some id →
  id ≠ EmptyString →
  Example.lp_find table id = Some p0 →
  is_valid p0 = true →
  existsb (is_canonical_membership lp_canonical) (memberships_details p0) = true →
  passes_checks Example.table_launchpad (Example.grown_from table) lp_group lp_canonical user.
Proof.
  intros Hid Hne Hfind Hvalid Hemp. exists id. split_and!; [done | done |].
  intros st Hst. destruct (grown_from_find table st id p0 Hst Hfind) as (p & Hp & Hv & [k Hm]).
  exists st, p. simpl. rewrite Hp. split_and!; [done | congruence | | right; by eexists].
  unfold _check_memberships. rewrite check_memberships_loop_scan. simpl.
  by rewrite Hm, existsb_app, Hemp.
Qed.

Lemma add_users_to_group_isolates_failures_witness :
  let reachable := Example.grown_from Example.lp_initial in
  let lp_group := (Example.lp_team "pc5a-infra").2 in
  let lp_canonical := (Example.lp_team "canonical").2 in
  raises_only_KeyError Example.table_launchpad reachable
  ∧ always_found Example.table_launchpad reachable "pc5a-infra"
  ∧ always_found Example.table_launchpad reachable "canonical"
  ∧ reachable Example.lp_initial
  ∧ passes_checks Example.table_launchpad reachable lp_group lp_canonical Example.ann
  ∧ truthy (launchpad_id Example.bob_without_id) = false
  ∧ passes_checks Example.table_launchpad reachable lp_group lp_canonical Example.cat
  ∧ (∃ st' r,
       add_users_to_group Example.table_launchpad "pc5a-infra"
         [Example.ann; Example.bob_without_id; Example.jdoe; Example.cat]
         Example.lp_initial = (st', Ok r)
       ∧ group r = "pc5a-infra"
       ∧ entry_users r ≡ₚ [Example.ann; Example.bob_without_id; Example.jdoe; Example.cat]
       ∧ ∀ u, u ∈ [Example.ann; Example.bob_without_id; Example.jdoe; Example.cat] →
              truthy (launchpad_id u) = false → (u, "no launchpad id") ∈ failed r)
  ∧ ∃ st', add_users_to_group Example.table_launchpad "pc5a-infra"
             [Example.ann; Example.bob_without_id; Example.cat] Example.lp_initial
           = (st', Ok {| group := "pc5a-infra"; success := [Example.ann; Example.cat];
                         failed := [(Example.bob_without_id, "no launchpad id")] |}).
Proof.
  intros reachable lp_group lp_canonical.
  pose proof (table_launchpad_raises_only_KeyError Example.lp_initial) as Hlp.
  assert (always_found Example.table_launchpad reachable "pc5a-infra") as Hgroup
    by (by eapply table_launchpad_always_found).
  assert (always_found Example.table_launchpad reachable "canonical") as Hcanonical
    by (by eapply table_launchpad_always_found).
  pose proof (grown_from_refl Example.lp_initial) as Hst.
  assert (passes_checks Example.table_launchpad reachable lp_group lp_canonical Example.ann)
    as Hann.
  { by apply (table_launchpad_passes_checks _ _ _ _ "ann-lee"
                (Example.lp_employee "ann-lee").2). }
  assert (passes_checks Example.table_launchpad reachable lp_group lp_canonical Example.cat)
    as Hcat.
  { by apply (table_launchpad_passes_checks _ _ _ _ "cat-sun"
                (Example.lp_employee "cat-sun").2). }
  split_and!; try done.
  - exact (proj1 (add_users_to_group_isolates_failures Example.table_launchpad "pc5a-infra"
                    reachable Example.lp_initial Hlp Hgroup Hcanonical Hst)
             [Example.ann; Example.bob_without_id; Example.jdoe; Example.cat]).
  - exact (proj2 (add_users_to_group_isolates_failures Example.table_launchpad "pc5a-infra"
                    reachable Example.lp_initial Hlp Hgroup Hcanonical Hst)
             Example.ann Example.bob_without_id Example.cat Example.lp_initial
             Example.lp_initial lp_group lp_canonical eq_refl eq_refl Hann eq_refl Hcat).
Defined.

(** C5 as stated does not hold, on three counts. It does not hold for
    every group name: for a group that Launchpad does not know the
    activity raises and returns no outcome. It does not hold for every
    failure on one user: when the look-up of the second of three users
    fails with an HTTP error, the activity raises, the third user is not
    looked at and the entry of the first is lost. And where it holds, the
    reason recorded for a user without Launchpad id is
    [no launchpad id], not [no external id]. *)
Lemma add_users_to_group_limits :
  (add_users_to_group Example.table_launchpad "pc9-infra"
     [Example.ann; Example.bob_without_id; Example.cat] Example.lp_initial).2
  = Raise KeyError
  ∧ (add_users_to_group (Example.failing_launchpad Example.lp_initial "bob-roy") "pc5a-infra"
       [Example.ann; Example.bob; Example.cat] tt).2
    = Raise HTTPError
  ∧ (add_users_to_group Example.table_launchpad "pc5a-infra"
       [Example.ann; Example.bob_without_id; Example.cat] Example.lp_initial).2
    = Ok {| group := "pc5a-infra"; success := [Example.ann; Example.cat];
            failed := [(Example.bob_without_id, "no launchpad id")] |}
  ∧ (Example.bob_without_id, "no external id")
    ∉ [(Example.bob_without_id, "no launchpad id")].
Proof.
  split_and!; [reflexivity | reflexivity | reflexivity |].
  intros Hin%list_elem_of_singleton. discriminate.
Qed.

(** ** activities/jira.py: the extractor *)

Section ResourceMap.
Context `{StrHash}.

Lemma elem_of_resource_map_update_keys (rm : list (Resource * list User))
    (r r' : Resource) (us : list User) :
  r' ∈ (resource_map_update rm r us).*1 ↔ r' ∈ rm.*1 ∨ r' = r.
Proof. apply (elem_of_dict_set_keys Resource_same_element). Qed.

Lemma NoDup_resource_map_update_keys (rm : list (Resource * list User))
    (r : Resource) (us : list User) :
  NoDup rm.*1 → NoDup (resource_map_update rm r us).*1.
Proof. apply (NoDup_dict_set_keys Resource_same_element). Qed.

(** After an update the set of the resource is the union of what it
    was and of the users added; the other sets are as they were. *)
Lemma elem_of_resource_map_update (rm : list (Resource * list User))
    (r r' : Resource) (us : list User) (u : User) :
  u ∈ default [] (dict_get (resource_map_update rm r us) r')
  ↔ u ∈ default [] (dict_get rm r') ∨ (r' = r ∧ u ∈ us).
Proof.
  unfold resource_map_update. destruct (decide (r' = r)) as [->|Hne].
  - rewrite (dict_get_set_eq Resource_same_element). simpl.
    rewrite (elem_of_set_update User_same_element). tauto.
  - rewrite (dict_get_set_ne Resource_same_element) by done. tauto.
Qed.

Lemma apply_updates_app (rm ups1 ups2 : list (Resource * list User)) :
  apply_updates rm (ups1 ++ ups2) = apply_updates (apply_updates rm ups1) ups2.
Proof. apply fold_left_app. Qed.

Lemma elem_of_apply_updates_keys (ups rm : list (Resource * list User)) (r : Resource) :
  r ∈ (apply_updates rm ups).*1 ↔ r ∈ rm.*1 ∨ r ∈ ups.*1.
Proof.
  revert rm. induction ups as [|[r0 us0] ups IH]; intros rm; simpl.
  - rewrite elem_of_nil. tauto.
  - unfold apply_updates in *. simpl.
    rewrite IH, elem_of_resource_map_update_keys, elem_of_cons. tauto.
Qed.

Lemma NoDup_apply_updates_keys (ups rm : list (Resource * list User)) :
  NoDup rm.*1 → NoDup (apply_updates rm ups).*1.
Proof.
  revert rm. induction ups as [|[r0 us0] ups IH]; intros rm Hnd; [done|].
  unfold apply_updates in *. simpl. by apply IH, NoDup_resource_map_update_keys.
Qed.

(** The set that a resource ends with is the union of the set it
    started with and of all the sets added to it. *)
Lemma elem_of_apply_updates (ups rm : list (Resource * list User))
    (r : Resource) (u : User) :
  u ∈ default [] (dict_get (apply_updates rm ups) r)
  ↔ u ∈ default [] (dict_get rm r) ∨ ∃ us, (r, us) ∈ ups ∧ u ∈ us.
Proof.
  revert rm. induction ups as [|[r0 us0] ups IH]; intros rm.
  - simpl. split; [by left|]. intros [?|(us & Hin & _)]; [done|].
    by apply elem_of_nil in Hin.
  - unfold apply_updates in *. simpl. rewrite IH, elem_of_resource_map_update. split.
    + intros [[?|[-> Hu]]|(us & Hin & Hu)].
      * by left.
      * right. exists us0. split; [by left | done].
      * right. exists us. split; [by right | done].
    + intros [?|(us & Hin & Hu)]; [by left; left|].
      apply elem_of_cons in Hin as [[= -> ->]|Hin].
      * left. by right.
      * right. by exists us.
Qed.
End ResourceMap.

Section Extractor.
Context `{StrHash}.
Variables (CONF : Conf) (jira : JiraServer) (cloud : string) (infra : Resource).

Lemma integration_step_required (issue : Issue) (us : list User)
    (rm : list (Resource * list User)) (integration : string) :
  integration_step cloud infra issue us rm integration
  = match required_resource cloud infra issue integration with
    | Some r => resource_map_update rm r us
    | None => rm
    end.
Proof.
  unfold integration_step, required_resource.
  repeat case_bool_decide; reflexivity.
Qed.

(** The updates that the integration layers of one ticket stand for. *)
Lemma integrations_updates (issue : Issue) (us : list User) (integrations : list string)
    (rm : list (Resource * list User)) :
  fold_left (integration_step cloud infra issue us) integrations rm
  = apply_updates rm
      (omap (λ i, (λ r, (r, us)) <$> required_resource cloud infra issue i) integrations).
Proof.
  revert rm. induction integrations as [|i integrations IH]; intros rm; [done|].
  simpl. rewrite IH, integration_step_required.
  destruct (required_resource cloud infra issue i); reflexivity.
Qed.

Lemma issue_step_updates (rm rm' : list (Resource * list User)) (issue : Issue) :
  issue_step CONF jira cloud infra rm issue = Ok rm' →
  ∃ ups, rm' = apply_updates rm ups
         ∧ ∀ r us, (r, us) ∈ ups ↔ contributes CONF jira cloud infra issue r us.
Proof.
  unfold issue_step, contributes, actionable.
  destruct (is_issue_completed issue) eqn:Hdone.
  { intros [= <-]. exists []. split; [done|]. intros r us. split.
    - by intros ?%elem_of_nil.
    - by intros [[? _] _]. }
  destruct (get_pending_prerequisite_issues CONF jira issue) as [pending|e] eqn:Hpending;
    simpl; [|done].
  case_bool_decide as Htruthy.
  { intros [= <-]. exists []. split; [done|]. intros r us. split.
    - by intros ?%elem_of_nil.
    - intros [[_ [[= ->]|[= ->]]] _]; by destruct Htruthy. }
  fold (collaborator_set issue).
  destruct (collaborator_set issue) as [new_users|e] eqn:Husers; simpl; [|done].
  intros [= <-]. rewrite integrations_updates. eexists. split; [reflexivity|].
  intros r us. rewrite list_elem_of_omap. split.
  - intros (i & Hi & Hreq).
    destruct (required_resource cloud infra issue i) as [r0|] eqn:Hr; [|done].
    simpl in Hreq. injection Hreq as <- <-. split_and!; [done | | done | by exists i].
    destruct pending as [[|k ks]|]; [by right | | by left].
    destruct Htruthy. by split.
  - intros (_ & [= ->] & i & Hi & Hreq). exists i. split; [done|]. by rewrite Hreq.
Qed.

Lemma issues_loop_updates (issues : list Issue) (rm rm' : list (Resource * list User)) :
  issues_loop CONF jira cloud infra rm issues = Ok rm' →
  ∃ ups, rm' = apply_updates rm ups
         ∧ ∀ r us, (r, us) ∈ ups
                   ↔ ∃ issue, issue ∈ issues ∧ contributes CONF jira cloud infra issue r us.
Proof.
  revert rm. induction issues as [|issue issues IH]; intros rm; simpl.
  - intros [= <-]. exists []. split; [done|]. intros r us. split.
    + by intros ?%elem_of_nil.
    + by intros (? & ?%elem_of_nil & _).
  - destruct (issue_step CONF jira cloud infra rm issue) as [rm1|e] eqn:Hstep; simpl; [|done].
    intros Hloop. apply issue_step_updates in Hstep as (ups1 & -> & Hups1).
    apply IH in Hloop as (ups2 & -> & Hups2).
    exists (ups1 ++ ups2). split; [by rewrite apply_updates_app|].
    intros r us. rewrite elem_of_app, Hups1, Hups2. split.
    + intros [?|(t & Ht & ?)].
      * exists issue. split; [by left | done].
      * exists t. split; [by right | done].
    + intros (t & [->|Ht]%elem_of_cons & ?); [by left|]. right. by exists t.
Qed.

(** A [None] among the Jira users makes the comprehension raise. *)
Lemma convert_users_None (jira_users : list (option JiraUser)) :
  None ∈ jira_users →
  list_comprehension convert_user jira_users
  = Raise (AttributeError "'NoneType' object has no attribute 'displayName'").
Proof.
  induction jira_users as [|[u|] rest IH]; intros Hin.
  - by apply elem_of_nil in Hin.
  - apply elem_of_cons in Hin as [?|Hin]; [done|]. simpl. by rewrite IH.
  - reflexivity.
Qed.

(** An actionable ticket without assignee makes its turn of the loop
    raise, whatever its collaborators and integration layers. *)
Lemma issue_step_null_assignee (rm : list (Resource * list User)) (issue : Issue) :
  actionable CONF jira issue →
  assignee issue = None →
  issue_step CONF jira cloud infra rm issue
  = Raise (AttributeError "'NoneType' object has no attribute 'displayName'").
Proof.
  intros [Hdone Hpending] Hassignee. unfold issue_step. rewrite Hdone.
  assert (∃ p, get_pending_prerequisite_issues CONF jira issue = Ok p
               ∧ ¬ (p ≠ None ∧ p ≠ Some [])) as (p & -> & Hp).
  { destruct Hpending as [->| ->]; eexists; (split; [done|]); intros [? ?]; done. }
  simpl. rewrite bool_decide_eq_false_2 by done.
  rewrite convert_users_None; [done|].
  rewrite Hassignee. apply elem_of_app. right. by apply list_elem_of_singleton.
Qed.
End Extractor.

(** C4 at an open ticket with one collaborator and no assignee. The
    [None] is appended to the collaborators and converted like them:
    the turn of the loop for this ticket raises, and so does the
    activity. A ticket whose collaborators field is null, in contrast,
    is taken as having none. *)
Theorem null_assignee_raises :
  let infra := infra_node_of Example.CONF "PC5a" in
  let jira := Example.tracker [Example.ticket_43] in
  assignee Example.ticket_43 = None
  ∧ collaborators Example.ticket_43 = Some [Example.jira_ann]
  ∧ @issue_step Example.length_hash Example.CONF jira "PC5a" infra [] Example.ticket_43
    = Raise (AttributeError "'NoneType' object has no attribute 'displayName'")
  ∧ @get_access_for_current_sprint Example.length_hash Example.CONF jira "PC5a"
    = Raise (AttributeError "'NoneType' object has no attribute 'displayName'")
  ∧ collaborator_set
      {| key := "PACLOUD-44"; status_name := "To Do"; integration_layer := None;
         collaborators := None; assignee := Some Example.jira_bob; issuelinks := None |}
    = Ok [Example.bob_without_id].
Proof. vm_compute. repeat split. Qed.

Section AccessResultFacts.
Context `{StrHash}.

Lemma user_map_lookup_others (data : list (Resource * list User))
    (user_map : gmap string (list User)) (n : string) :
  (∀ e, e ∈ data → resource_name e.1 ≠ n) →
  fold_left (λ user_map entry, <[resource_name entry.1 := entry.2]> user_map) data user_map
    !! n = user_map !! n.
Proof.
  revert user_map. induction data as [|e data IH]; intros user_map Hne; [done|].
  simpl. rewrite IH.
  - apply lookup_insert_ne, Hne. by left.
  - intros e' He'. apply Hne. by right.
Qed.

(** When distinct resources of the map have distinct names, [from_map]
    files each user set under the name of its resource. *)
Lemma user_map_lookup (data : list (Resource * list User))
    (user_map : gmap string (list User)) (r : Resource) (us : list User) :
  NoDup data.*1 →
  (∀ r1 r2, r1 ∈ data.*1 → r2 ∈ data.*1 → resource_name r1 = resource_name r2 → r1 = r2) →
  (r, us) ∈ data →
  fold_left (λ user_map entry, <[resource_name entry.1 := entry.2]> user_map) data user_map
    !! resource_name r = Some us.
Proof.
  revert user_map. induction data as [|e data IH]; intros user_map Hnd Hinj Hin.
  - by apply elem_of_nil in Hin.
  - simpl in *. apply NoDup_cons in Hnd as [Hfresh Hnd].
    apply elem_of_cons in Hin as [<-|Hin].
    + rewrite user_map_lookup_others; [apply lookup_insert_eq|].
      intros e' He' Hname. apply Hfresh.
      assert (e'.1 ∈ data.*1) as Hkey by (apply list_elem_of_fmap; by exists e').
      rewrite <- (Hinj e'.1 r); [done | by right | by left | done].
    + apply IH; [done | | done].
      intros r1 r2 H1 H2. apply Hinj; by right.
Qed.

Lemma to_map_fold (f : Resource → list User) (data acc : list (Resource * list User)) :
  NoDup (acc ++ data).*1 →
  (∀ r us, (r, us) ∈ data → f r = us) →
  fold_left (λ mapping resource, dict_set mapping resource (f resource)) data.*1 acc
  = acc ++ data.
Proof.
  revert acc. induction data as [|[r us] data IH]; intros acc Hnd Hf; simpl.
  - by rewrite app_nil_r.
  - rewrite (Hf r us) by by left.
    rewrite (dict_set_fresh Resource_same_element).
    + rewrite IH.
      * by rewrite <- app_assoc.
      * by rewrite <- app_assoc.
      * intros r' us' Hin. apply Hf. by right.
    + rewrite fmap_app in Hnd. apply NoDup_app in Hnd as (_ & Hdisj & _).
      intros Hr. apply (Hdisj r Hr). by left.
Qed.

(** Under the same condition, [to_map] gives back the map that
    [from_map] was given. *)
Lemma to_map_from_map (data : list (Resource * list User)) :
  NoDup data.*1 →
  (∀ r1 r2, r1 ∈ data.*1 → r2 ∈ data.*1 → resource_name r1 = resource_name r2 → r1 = r2) →
  to_map (from_map data) = data.
Proof.
  intros Hnd Hinj. unfold to_map, from_map. simpl.
  change (map fst data) with (data.*1).
  rewrite to_map_fold; [done | done |].
  intros r us Hin. by rewrite (user_map_lookup data ∅ r us).
Qed.
End AccessResultFacts.

Lemma required_resource_cases (cloud : string) (infra : Resource) (issue : Issue)
    (integration : string) (r : Resource) :
  required_resource cloud infra issue integration = Some r →
  r = infra ∨ r = OpenStackProject (lower (key issue)) None (Some cloud).
Proof.
  unfold required_resource. repeat case_bool_decide; intros [= <-]; auto.
Qed.

(** C6. Take a run of the extractor that returns, over tickets none of
    whose keys lower-cases to the name of the infra node (a Jira key ends
    in a number). If two actionable tickets of the run both ask access
    to one resource, the returned result has that resource once, with
    one set of users; both tickets' collaborators are in that set, and
    the set holds the collaborators of the tickets of the run that ask
    access to the resource, and nobody else. *)
Theorem access_requirements_union `{StrHash} (CONF : Conf) (jira : JiraServer)
    (cloud : string) (issues : list Issue) (access_result : AccessResult) :
  let infra := infra_node_of CONF cloud in
  get_issues_for_current_sprint CONF jira (Some cloud) = Ok issues →
  get_access_for_current_sprint CONF jira cloud = Ok access_result →
  (∀ issue, issue ∈ issues → lower (key issue) ≠ (cloud ++ "-infra-node")%string) →
  ∀ (t1 t2 : Issue) (r : Resource) (us1 us2 : list User),
    t1 ∈ issues → t2 ∈ issues →
    contributes CONF jira cloud infra t1 r us1 →
    contributes CONF jira cloud infra t2 r us2 →
    NoDup (resources access_result)
    ∧ r ∈ resources access_result
    ∧ ∃ us, users access_result !! resource_name r = Some us
            ∧ dict_get (to_map access_result) r = Some us
            ∧ (∀ us', (r, us') ∈ to_map access_result → us' = us)
            ∧ (∀ u, u ∈ us1 ∨ u ∈ us2 → u ∈ us)
            ∧ (∀ u, u ∈ us ↔ ∃ t us', t ∈ issues
                                      ∧ contributes CONF jira cloud infra t r us'
                                      ∧ u ∈ us').
Proof.
  intros infra Hissues Haccess Hkeys t1 t2 r us1 us2 Ht1 Ht2 Hc1 Hc2.
  unfold get_access_for_current_sprint in Haccess. rewrite Hissues in Haccess.
  simpl in Haccess. unfold CONF_get in Haccess.
  case_bool_decide; simpl in Haccess; [|done].
  fold (infra_node_of CONF cloud) in Haccess. fold infra in Haccess.
  destruct (issues_loop CONF jira cloud infra [] issues) as [rm|e] eqn:Hloop;
    simpl in Haccess; [|by destruct e].
  injection Haccess as <-.
  apply issues_loop_updates in Hloop as (ups & -> & Hups).
  set (rm := apply_updates [] ups).
  assert (NoDup rm.*1) as Hnd by (apply NoDup_apply_updates_keys; constructor).
  assert (∀ r', r' ∈ rm.*1 → ∃ t us', t ∈ issues ∧ contributes CONF jira cloud infra t r' us')
    as Hkey.
  { intros r' Hr'. apply elem_of_apply_updates_keys in Hr' as [Hr'|Hr'].
    - by apply elem_of_nil in Hr'.
    - apply list_elem_of_fmap in Hr' as ([r'' us'] & -> & Hin). simpl.
      apply Hups in Hin as (t & Ht & Hc). by exists t, us'. }
  assert (∀ r1 r2, r1 ∈ rm.*1 → r2 ∈ rm.*1 → resource_name r1 = resource_name r2 → r1 = r2)
    as Hinj.
  { intros r1 r2 (t & us' & Ht & _ & _ & i & _ & Hreq)%Hkey
                 (t' & us'' & Ht' & _ & _ & i' & _ & Hreq')%Hkey Hname.
    apply required_resource_cases in Hreq as [->| ->];
      apply required_resource_cases in Hreq' as [->| ->]; simpl in Hname.
    - done.
    - symmetry in Hname. by apply Hkeys in Hname.
    - by apply Hkeys in Hname.
    - by rewrite Hname. }
  rewrite (to_map_from_map rm Hnd Hinj). simpl. change (map fst rm) with (rm.*1).
  assert (r ∈ rm.*1) as Hr.
  { apply elem_of_apply_updates_keys. right. apply list_elem_of_fmap.
    exists (r, us1). split; [done|]. apply Hups. by exists t1. }
  destruct (proj2 (dict_get_is_Some_keys Resource_same_element rm r) Hr) as [us Hget].
  pose proof (dict_get_Some_elem_of Resource_same_element rm r us Hget) as Hin.
  assert (∀ u, u ∈ us ↔ ∃ t us', t ∈ issues ∧ contributes CONF jira cloud infra t r us'
                                  ∧ u ∈ us') as Hus.
  { intros u. pose proof (elem_of_apply_updates ups [] r u) as Hu.
    fold rm in Hu. rewrite Hget in Hu. simpl in Hu. rewrite Hu. split.
    - intros [?%elem_of_nil|(us' & Hin' & Hu')]; [done|].
      apply Hups in Hin' as (t & Ht & Hc). by exists t, us'.
    - intros (t & us' & Ht & Hc & Hu'). right. exists us'. split; [|done].
      apply Hups. by exists t. }
  split_and!; [done | done |]. exists us. split_and!.
  - by apply (user_map_lookup rm ∅ r us).
  - done.
  - intros us' Hin'. apply (dict_get_NoDup Resource_same_element) in Hin'; [|done].
    congruence.
  - intros u [Hu|Hu]; apply Hus; [by exists t1, us1 | by exists t2, us2].
  - done.
Qed.

Lemma access_requirements_union_witness :
  let jira := Example.tracker [Example.ticket_41; Example.ticket_42] in
  let infra := infra_node_of Example.CONF "PC5a" in
  let us1 := [Example.ann_from_ticket; Example.bob_without_id] in
  let us2 := [Example.cat_from_ticket; Example.ann_from_ticket] in
  let access_result :=
    from_map [(infra, [Example.ann_from_ticket; Example.bob_without_id;
                       Example.cat_from_ticket]);
              (OpenStackProject "pacloud-42" None (Some "PC5a"), us2)] in
  get_issues_for_current_sprint Example.CONF jira (Some "PC5a")
  = Ok [Example.ticket_41; Example.ticket_42]
  ∧ @get_access_for_current_sprint Example.length_hash Example.CONF jira "PC5a"
    = Ok access_result
  ∧ (∀ issue, issue ∈ [Example.ticket_41; Example.ticket_42] →
              lower (key issue) ≠ "PC5a-infra-node")
  ∧ contributes Example.CONF jira "PC5a" infra Example.ticket_41 infra us1
  ∧ contributes Example.CONF jira "PC5a" infra Example.ticket_42 infra us2
  ∧ ∃ us, users access_result !! "PC5a-infra-node" = Some us
          ∧ (∀ u, u ∈ us1 ∨ u ∈ us2 → u ∈ us).
Proof.
  intros jira infra us1 us2 access_result.
  assert (get_issues_for_current_sprint Example.CONF jira (Some "PC5a")
          = Ok [Example.ticket_41; Example.ticket_42]) as Hissues by reflexivity.
  assert (@get_access_for_current_sprint Example.length_hash Example.CONF jira "PC5a"
          = Ok access_result) as Haccess by (vm_compute; reflexivity).
  assert (∀ issue, issue ∈ [Example.ticket_41; Example.ticket_42] →
                   lower (key issue) ≠ "PC5a-infra-node") as Hkeys.
  { intros issue [->|Hin]%elem_of_cons; [discriminate|].
    apply list_elem_of_singleton in Hin as ->. discriminate. }
  assert (contributes Example.CONF jira "PC5a" infra Example.ticket_41 infra us1) as Hc1.
  { split_and!; [split; [reflexivity | by left] | reflexivity |].
    exists "Infrastructure". split; [by left | reflexivity]. }
  assert (contributes Example.CONF jira "PC5a" infra Example.ticket_42 infra us2) as Hc2.
  { split_and!; [split; [reflexivity | by left] | reflexivity |].
    exists "Infrastructure". split; [by left | reflexivity]. }
  split_and!; try done.
  destruct (@access_requirements_union Example.length_hash Example.CONF jira "PC5a"
              [Example.ticket_41; Example.ticket_42] access_result Hissues Haccess Hkeys
              Example.ticket_41 Example.ticket_42 infra us1 us2
              ltac:(by left) ltac:(right; by left) Hc1 Hc2)
    as (_ & _ & us & Hus & _ & _ & Hunion & _).
  exists us. split; [exact Hus | exact Hunion].
Defined.

(** ** workflows/grant_access.py: the run *)

(** C1, as the code has it. A run whose steps up to the grants succeed
    returns, and the summary that a run returns is the pair of zeros,
    whatever the grant activities have reported; a run of which an
    earlier step raises returns nothing. *)
Theorem run_returns_zero_counts `{StrHash} {S} (w : World S) (project cloud : string) (st : S) :
  (is_Ok (run_requirements w cloud) = true →
   returned (run w project cloud st) = Ok (0, 0)%Z)
  ∧ (∀ summary, returned (run w project cloud st) = Ok summary → summary = (0, 0)%Z)
  ∧ (∀ e, run_requirements w cloud = Raise e → returned (run w project cloud st) = Raise e).
Proof.
  unfold run. destruct (run_requirements w cloud) as [[cloud_config rm]|e]; simpl.
  - destruct (wait_tasks (world_launchpad w) (grant_tasks cloud_config rm) st)
      as [st' outcomes]; simpl.
    split_and!; [done | by intros summary [= <-] | done].
  - split_and!; [done | done | by intros e' [= <-]].
Qed.

Lemma run_returns_zero_counts_witness :
  is_Ok (@run_requirements Example.length_hash _ Example.world "PC5a") = true
  ∧ returned (@run Example.length_hash _ Example.world "PACLOUD" "PC5a" Example.lp_initial)
    = Ok (0, 0)%Z.
Proof.
  assert (is_Ok (@run_requirements Example.length_hash _ Example.world "PC5a") = true)
    as Hok by (vm_compute; reflexivity).
  split; [exact Hok|].
  exact (proj1 (@run_returns_zero_counts Example.length_hash _ Example.world
                  "PACLOUD" "PC5a" Example.lp_initial) Hok).
Defined.

(** C1 as stated does not hold: in this run the two grant activities
    report five users as succeeded, and the run returns zero for both
    counts. *)
Lemma run_summary_is_not_the_count :
  let report := @run Example.length_hash _ Example.world "PACLOUD" "PC5a" Example.lp_initial in
  returned report = Ok (0, 0)%Z
  ∧ users_succeeded (grant_outcomes report) = 5%Z
  ∧ users_failed (grant_outcomes report) = 0%Z
  ∧ returned report
    ≠ Ok (users_succeeded (grant_outcomes report), users_failed (grant_outcomes report)).
Proof. vm_compute. repeat split. discriminate. Qed.

(** * Further properties *)

(** ** activities/launchpad.py *)

(** The early exits of the loop of [_check_memberships] do not change
    its answer: the user is an employee when some membership is in the
    canonical team, and is in the group already when some membership in
    another team than the canonical one is in the target group with the
    status Approved or Administrator. When the target group is the
    canonical team itself, no user is ever found to be in it already. *)
Theorem check_memberships_scan (lp_user canonical_group target_group : LpPerson) :
  _check_memberships lp_user canonical_group target_group
  = (existsb (is_canonical_membership canonical_group) (memberships_details lp_user),
     existsb (is_target_membership canonical_group target_group)
       (memberships_details lp_user))
  ∧ (lp_name target_group = lp_name canonical_group →
     (_check_memberships lp_user canonical_group target_group).2 = false).
Proof.
  unfold _check_memberships. rewrite check_memberships_loop_scan. simpl. split; [done|].
  intros Hsame. apply not_true_is_false. rewrite existsb_exists.
  intros (m & _ & Hm). unfold is_target_membership in Hm. rewrite Hsame in Hm.
  destruct (bool_decide (team m = lp_name canonical_group)); done.
Qed.

(** A user who is a valid member of the canonical team and in the group
    already is a success, and the service is left as the look-up of the
    user left it: [addMember] is not called, whatever it would do. *)
Theorem add_user_to_group_already_member {S} (launchpad : Launchpad S)
    (lp_group lp_canonical lp_user : LpPerson) (result_ : LaunchpadGroupChangeResult)
    (user : User) (id : string) (st st1 : S) :
  launchpad_id user = Some id →
  id ≠ EmptyString →
  people launchpad id st = (st1, Ok lp_user) →
  is_valid lp_user = true →
  _check_memberships lp_user lp_canonical lp_group = (true, true) →
  add_user_to_group launchpad lp_group lp_canonical result_ user st
  = (st1, Ok (add_success result_ user)).
Proof.
  intros Hid Hne Hp Hvalid Hcheck.
  unfold add_user_to_group, except_KeyError. rewrite Hid. simpl.
  rewrite bool_decide_eq_false_2 by done. simpl.
  unfold lp_bind. by rewrite Hp, Hvalid, Hcheck.
Qed.

Lemma add_user_to_group_already_member_witness :
  let launchpad := Example.closed_launchpad
                     [Example.lp_team "canonical"; Example.lp_team "pc5a-infra";
                      Example.lp_member "ann-lee" "pc5a-infra"] in
  let result_ := {| group := "pc5a-infra"; success := []; failed := [] |} in
  launchpad_id Example.ann = Some "ann-lee"
  ∧ add_user_to_group launchpad (Example.lp_team "pc5a-infra").2
      (Example.lp_team "canonical").2 result_ Example.ann tt
    = (tt, Ok (add_success result_ Example.ann)).
Proof.
  intros launchpad result_. split; [reflexivity|].
  apply (add_user_to_group_already_member launchpad _ _
           (Example.lp_member "ann-lee" "pc5a-infra").2 result_ Example.ann "ann-lee" tt tt);
    [reflexivity | discriminate | reflexivity | reflexivity | reflexivity].
Defined.

(** A user whom Launchpad knows is rejected without a call of
    [addMember] when the person is not valid, whatever the memberships,
    and when the person is valid and not in the canonical team. *)
Theorem add_user_to_group_rejects {S} (launchpad : Launchpad S)
    (lp_group lp_canonical lp_user : LpPerson) (result_ : LaunchpadGroupChangeResult)
    (user : User) (id : string) (st st1 : S) :
  launchpad_id user = Some id →
  id ≠ EmptyString →
  people launchpad id st = (st1, Ok lp_user) →
  is_valid lp_user = false
  ∨ existsb (is_canonical_membership lp_canonical) (memberships_details lp_user) = false →
  add_user_to_group launchpad lp_group lp_canonical result_ user st
  = (st1, Ok (add_failure result_ user
                (if is_valid lp_user then "not a Canonical employee"
                 else "invalid launchpad user"))).
Proof.
  intros Hid Hne Hp Hrej.
  unfold add_user_to_group, except_KeyError. rewrite Hid. simpl.
  rewrite bool_decide_eq_false_2 by done. simpl.
  unfold lp_bind. rewrite Hp. destruct (is_valid lp_user); simpl; [|done].
  destruct Hrej as [?|Hemp]; [done|].
  unfold _check_memberships. rewrite check_memberships_loop_scan. simpl.
  by rewrite Hemp.
Qed.

Lemma add_user_to_group_rejects_witness :
  let launchpad := Example.canned_launchpad
                     [Example.lp_team "canonical"; Example.lp_team "pc5a-infra";
                      Example.lp_outsider "ann-lee"] in
  let result_ := {| group := "pc5a-infra"; success := []; failed := [] |} in
  launchpad_id Example.ann = Some "ann-lee"
  ∧ add_user_to_group launchpad (Example.lp_team "pc5a-infra").2
      (Example.lp_team "canonical").2 result_ Example.ann tt
    = (tt, Ok (add_failure result_ Example.ann "not a Canonical employee")).
Proof.
  intros launchpad result_. split; [reflexivity|].
  apply (add_user_to_group_rejects launchpad _ _
           (Example.lp_outsider "ann-lee").2 result_ Example.ann "ann-lee" tt tt);
    [reflexivity | discriminate | reflexivity | right; reflexivity].
Defined.

(** A [KeyError], from the look-up of the user or from [addMember], is
    caught: the user is recorded as not in Launchpad and the loop can go
    on from the state that the failed call left. *)
Theorem add_user_to_group_KeyError {S} (launchpad : Launchpad S)
    (lp_group lp_canonical : LpPerson) (result_ : LaunchpadGroupChangeResult)
    (user : User) (id : string) (st st1 : S) :
  launchpad_id user = Some id →
  id ≠ EmptyString →
  people launchpad id st = (st1, Raise KeyError)
  ∨ (∃ lp_user st0,
       people launchpad id st = (st0, Ok lp_user)
       ∧ is_valid lp_user = true
       ∧ _check_memberships lp_user lp_canonical lp_group = (true, false)
       ∧ addMember launchpad lp_group lp_user "Approved" st0 = (st1, Raise KeyError)) →
  add_user_to_group launchpad lp_group lp_canonical result_ user st
  = (st1, Ok (add_failure result_ user "User not in launchpad")).
Proof.
  intros Hid Hne Hkey.
  unfold add_user_to_group, except_KeyError. rewrite Hid. simpl.
  rewrite bool_decide_eq_false_2 by done. simpl. unfold lp_bind at 1.
  destruct Hkey as [Hp|(p & st0 & Hp & Hvalid & Hcheck & Hadd)]; rewrite Hp; [done|].
  rewrite Hvalid, Hcheck. simpl. unfold lp_bind. by rewrite Hadd.
Qed.

Lemma add_user_to_group_KeyError_witness :
  let launchpad := Example.closed_launchpad Example.lp_initial in
  let result_ := {| group := "pc5a-infra"; success := []; failed := [] |} in
  launchpad_id Example.ann = Some "ann-lee"
  ∧ add_user_to_group launchpad (Example.lp_team "pc5a-infra").2
      (Example.lp_team "canonical").2 result_ Example.ann tt
    = (tt, Ok (add_failure result_ Example.ann "User not in launchpad"))
  ∧ add_user_to_group launchpad (Example.lp_team "pc5a-infra").2
      (Example.lp_team "canonical").2 result_ Example.jdoe tt
    = (tt, Ok (add_failure result_ Example.jdoe "User not in launchpad")).
Proof.
  intros launchpad result_. split; [reflexivity|]. split.
  - apply (add_user_to_group_KeyError launchpad _ _ result_ Example.ann "ann-lee" tt tt);
      [reflexivity | discriminate |].
    right. exists (Example.lp_employee "ann-lee").2, tt. by split_and!.
  - apply (add_user_to_group_KeyError launchpad _ _ result_ Example.jdoe "john-doe" tt tt);
      [reflexivity | discriminate |].
    by left.
Defined.

Lemma add_users_loop_app {S} (launchpad : Launchpad S) (lp_group lp_canonical : LpPerson)
    (us1 us2 : list User) (result_ : LaunchpadGroupChangeResult) (st : S) :
  add_users_loop launchpad lp_group lp_canonical result_ (us1 ++ us2) st
  = match add_users_loop launchpad lp_group lp_canonical result_ us1 st with
    | (st1, Ok r1) => add_users_loop launchpad lp_group lp_canonical r1 us2 st1
    | (st1, Raise e) => (st1, Raise e)
    end.
Proof.
  revert result_ st. induction us1 as [|u us1 IH]; intros result_ st; simpl; [done|].
  unfold lp_bind.
  destruct (add_user_to_group launchpad lp_group lp_canonical result_ u st) as [st1 [r1|e]];
    [apply IH | done].
Qed.

(** An exception other than [KeyError] is not caught: when the look-up
    of a user raises one, the loop stops there and raises it, and the
    entries recorded for the users before are not returned. *)
Theorem add_users_loop_other_exception {S} (launchpad : Launchpad S)
    (lp_group lp_canonical : LpPerson) (result_ r1 : LaunchpadGroupChangeResult)
    (us1 us2 : list User) (user : User) (id : string) (e : exn) (st st1 st2 : S) :
  add_users_loop launchpad lp_group lp_canonical result_ us1 st = (st1, Ok r1) →
  launchpad_id user = Some id →
  id ≠ EmptyString →
  people launchpad id st1 = (st2, Raise e) →
  e ≠ KeyError →
  add_users_loop launchpad lp_group lp_canonical result_ (us1 ++ user :: us2) st
  = (st2, Raise e).
Proof.
  intros Hus1 Hid Hne Hp He. rewrite add_users_loop_app, Hus1. simpl.
  unfold lp_bind at 1.
  assert (add_user_to_group launchpad lp_group lp_canonical r1 user st1 = (st2, Raise e))
    as ->; [|done].
  unfold add_user_to_group, except_KeyError. rewrite Hid. simpl.
  rewrite bool_decide_eq_false_2 by done. simpl. unfold lp_bind. rewrite Hp.
  by destruct e.
Qed.

Lemma add_users_loop_other_exception_witness :
  let launchpad := Example.failing_launchpad Example.lp_initial "bob-roy" in
  let result_ := {| group := "pc5a-infra"; success := []; failed := [] |} in
  add_users_loop launchpad (Example.lp_team "pc5a-infra").2 (Example.lp_team "canonical").2
    result_ [Example.ann] tt
  = (tt, Ok (add_success result_ Example.ann))
  ∧ add_users_loop launchpad (Example.lp_team "pc5a-infra").2 (Example.lp_team "canonical").2
      result_ ([Example.ann] ++ Example.bob :: [Example.cat]) tt
    = (tt, Raise HTTPError).
Proof.
  intros launchpad result_. split; [reflexivity|].
  apply (add_users_loop_other_exception launchpad _ _ result_
           (add_success result_ Example.ann) [Example.ann] [Example.cat] Example.bob
           "bob-roy" HTTPError tt tt tt);
    [reflexivity | reflexivity | discriminate | reflexivity | discriminate].
Defined.

(** The look-ups of the group and of the canonical team are outside the
    [try]: when one of them raises, a [KeyError] for an unknown group
    included, the activity raises and no user is looked at. *)
Theorem add_users_to_group_unknown_group {S} (launchpad : Launchpad S) (grp : string)
    (user_batch : list User) (e : exn) (st st1 : S) :
  people launchpad grp st = (st1, Raise e)
  ∨ (∃ lp_group st0, people launchpad grp st = (st0, Ok lp_group)
                     ∧ people launchpad "canonical" st0 = (st1, Raise e)) →
  add_users_to_group launchpad grp user_batch st = (st1, Raise e).
Proof.
  unfold add_users_to_group, lp_bind.
  intros [->|(g & st0 & -> & ->)]; reflexivity.
Qed.

Lemma add_users_to_group_unknown_group_witness :
  add_users_to_group Example.table_launchpad "pc9-infra" [Example.ann; Example.bob]
    Example.lp_initial
  = (Example.lp_initial, Raise KeyError).
Proof.
  apply (add_users_to_group_unknown_group Example.table_launchpad "pc9-infra"
           [Example.ann; Example.bob] KeyError Example.lp_initial Example.lp_initial).
  left. reflexivity.
Defined.

(** What a turn of the loop that returns has done, for any Launchpad: it
    has added the user as a success or as a failure. *)
Lemma add_user_to_group_Ok {S} (launchpad : Launchpad S) (lp_group lp_canonical : LpPerson)
    (result_ r : LaunchpadGroupChangeResult) (user : User) (st st' : S) :
  add_user_to_group launchpad lp_group lp_canonical result_ user st = (st', Ok r) →
  r = add_success result_ user ∨ ∃ reason, r = add_failure result_ user reason.
Proof.
  unfold add_user_to_group, except_KeyError.
  destruct (truthy (launchpad_id user)); simpl.
  2:{ intros [= _ <-]. right. by eexists. }
  unfold lp_bind at 1.
  destruct (people launchpad (default EmptyString (launchpad_id user)) st) as [st1 [p|e]].
  2:{ destruct e; intros [= _ <-] || intros [=]. right. by eexists. }
  destruct (is_valid p); simpl.
  2:{ intros [= _ <-]. right. by eexists. }
  destruct (_check_memberships p lp_canonical lp_group) as [[] []]; simpl.
  - intros [= _ <-]. by left.
  - unfold lp_bind.
    destruct (addMember launchpad lp_group p "Approved" st1) as [st2 [[]|e]]; simpl.
    + intros [= _ <-]. by left.
    + destruct e; intros [= _ <-] || intros [=]. right. by eexists.
  - intros [= _ <-]. right. by eexists.
  - intros [= _ <-]. right. by eexists.
Qed.

Lemma add_users_loop_order {S} (launchpad : Launchpad S) (lp_group lp_canonical : LpPerson)
    (user_batch : list User) (result_ r : LaunchpadGroupChangeResult) (st st' : S) :
  add_users_loop launchpad lp_group lp_canonical result_ user_batch st = (st', Ok r) →
  group r = group result_
  ∧ ∃ s f, success r = success result_ ++ s
           ∧ failed r = failed result_ ++ f
           ∧ s `sublist_of` user_batch
           ∧ f.*1 `sublist_of` user_batch
           ∧ length s + length f = length user_batch.
Proof.
  revert result_ st. induction user_batch as [|u rest IH]; intros result_ st; simpl.
  - intros [= _ <-]. split; [done|]. exists [], []. by rewrite !app_nil_r.
  - unfold lp_bind.
    destruct (add_user_to_group launchpad lp_group lp_canonical result_ u st)
      as [st1 [r1|e]] eqn:Hstep; [|done].
    intros (Hg & s & f & Hs & Hf & Hsub & Hfsub & Hlen)%IH.
    apply add_user_to_group_Ok in Hstep as [->|(reason & ->)]; simpl in *.
    + split; [done|]. exists (u :: s), f. rewrite <- app_assoc in Hs.
      split_and!; [done | done | by apply sublist_skip | by apply sublist_cons | simpl; lia].
    + split; [done|]. exists s, ((u, reason) :: f). rewrite <- app_assoc in Hf.
      split_and!; [done | done | by apply sublist_cons | by apply sublist_skip | simpl; lia].
Qed.

(** Whenever [add_users_to_group] returns, for any Launchpad, the
    outcome is for the group asked, the successes are users of the batch
    in the order of the batch, so are the users of the failures, and
    there are as many entries as users. *)
Theorem add_users_to_group_keeps_order {S} (launchpad : Launchpad S) (grp : string)
    (user_batch : list User) (r : LaunchpadGroupChangeResult) (st st' : S) :
  add_users_to_group launchpad grp user_batch st = (st', Ok r) →
  group r = grp
  ∧ success r `sublist_of` user_batch
  ∧ (failed r).*1 `sublist_of` user_batch
  ∧ length (success r) + length (failed r) = length user_batch.
Proof.
  unfold add_users_to_group, lp_bind.
  destruct (people launchpad grp st) as [st1 [g|e]]; [|done].
  destruct (people launchpad "canonical" st1) as [st2 [c|e]]; [|done].
  intros (Hg & s & f & Hs & Hf & Hsub & Hfsub & Hlen)%add_users_loop_order.
  simpl in *. by subst.
Qed.

Lemma add_users_to_group_keeps_order_witness :
  let r := {| group := "pc5a-infra"; success := [Example.ann; Example.cat];
              failed := [(Example.bob_without_id, "no launchpad id");
                         (Example.jdoe, "User not in launchpad")] |} in
  (add_users_to_group Example.table_launchpad "pc5a-infra"
     [Example.ann; Example.bob_without_id; Example.jdoe; Example.cat] Example.lp_initial).2
  = Ok r
  ∧ success r `sublist_of` [Example.ann; Example.bob_without_id; Example.jdoe; Example.cat]
  ∧ length (success r) + length (failed r) = 4.
Proof.
  intros r. split; [reflexivity|].
  destruct (add_users_to_group Example.table_launchpad "pc5a-infra"
              [Example.ann; Example.bob_without_id; Example.jdoe; Example.cat]
              Example.lp_initial) as [st' o] eqn:Hrun.
  assert (o = Ok r) as -> by (by injection Hrun as _ <-).
  pose proof (add_users_to_group_keeps_order Example.table_launchpad "pc5a-infra"
                [Example.ann; Example.bob_without_id; Example.jdoe; Example.cat]
                r Example.lp_initial st' Hrun) as (_ & Hsub & _ & Hlen).
  split; [exact Hsub | exact Hlen].
Defined.

(** ** activities/ldap.py *)

(** The clause that a user puts into the search filter tests the
    attribute that [get_identity_attribute] names for that user. *)
Theorem filter_parameter_identity_attribute (user : User) :
  get_filter_parameter user
  = ("(" ++ get_identity_attribute user ++ "=" ++ identity_value user ++ ")")%string.
Proof.
  unfold get_filter_parameter, get_identity_attribute, identity_value.
  destruct (email user), (launchpad_id user); reflexivity.
Qed.

(** Neither the Launchpad id of a user nor the index by Launchpad id has
    any part in the look-up of the user among the records found. *)
Theorem lookup_result_ignores_launchpad_id (results_map results_map' : results_index)
    (user : User) (other_id : option string) :
  results_map !!! ATTR_MAIL = results_map' !!! ATTR_MAIL →
  results_map !!! ATTR_CN = results_map' !!! ATTR_CN →
  lookup_result results_map user
  = lookup_result results_map'
      {| name := name user; email := email user; launchpad_id := other_id |}.
Proof.
  intros Hmail Hcn. rewrite !lookup_result_index. simpl. by rewrite Hmail, Hcn.
Qed.

Lemma lookup_result_ignores_launchpad_id_witness :
  lookup_result (index_entries [Example.john_doe_entry]) Example.jdoe
  = lookup_result
      (delete ATTR_LAUNCHPAD_ID (index_entries [Example.john_doe_entry]))
      {| name := "jdoe"; email := None; launchpad_id := Some "somebody-else" |}.
Proof.
  apply (lookup_result_ignores_launchpad_id (index_entries [Example.john_doe_entry])
           (delete ATTR_LAUNCHPAD_ID (index_entries [Example.john_doe_entry]))
           Example.jdoe (Some "somebody-else")); vm_compute; reflexivity.
Defined.

Lemma index_entry_cn (results_map : results_index) (entry : LdapEntry) (k : option string) :
  (index_entry results_map entry !!! ATTR_CN) !! k
  = if decide (Some (cn entry) = k) then Some entry else (results_map !!! ATTR_CN) !! k.
Proof.
  unfold index_entry, results_index in *. cbv zeta.
  rewrite lookup_total_insert_ne by done.
  rewrite lookup_total_insert_ne by done.
  rewrite lookup_total_insert_eq. apply lookup_insert.
Qed.

Lemma index_entry_mail (results_map : results_index) (entry : LdapEntry) (k : option string) :
  (index_entry results_map entry !!! ATTR_MAIL) !! k
  = if decide (mail entry = k) then Some entry else (results_map !!! ATTR_MAIL) !! k.
Proof.
  unfold index_entry, results_index in *. cbv zeta.
  rewrite lookup_total_insert_ne by done.
  rewrite lookup_total_insert_eq.
  rewrite lookup_total_insert_ne by done. apply lookup_insert.
Qed.

Lemma lookup_result_index_entry (results_map : results_index) (entry : LdapEntry)
    (user : User) :
  lookup_result (index_entry results_map entry) user
  = if matches_lookup user entry then Some entry else lookup_result results_map user.
Proof.
  rewrite !lookup_result_index. unfold matches_lookup. destruct (email user) as [e|].
  - rewrite index_entry_mail. case_decide as Hk.
    + by rewrite bool_decide_eq_true_2.
    + by rewrite bool_decide_eq_false_2.
  - rewrite index_entry_cn. case_decide as Hk.
    + rewrite bool_decide_eq_true_2; [done | congruence].
    + rewrite bool_decide_eq_false_2; [done | congruence].
Qed.

Lemma lookup_index_last (entries : list LdapEntry) (user : User) :
  lookup_result (index_entries entries) user
  = last (filter (λ entry, matches_lookup user entry = true) entries).
Proof.
  induction entries as [|entry entries IH] using rev_ind.
  - rewrite lookup_result_index. destruct (email user); reflexivity.
  - unfold index_entries in *. rewrite fold_left_app. simpl.
    rewrite lookup_result_index_entry, IH, filter_app, filter_cons, filter_nil.
    destruct (matches_lookup user entry) eqn:Hm.
    + rewrite decide_True by done. by rewrite last_snoc.
    + rewrite decide_False by done. by rewrite app_nil_r.
Qed.

(** The record that the loop finds for a user is the last of the records
    returned by the search that has the e-mail address of the user, or,
    for a user without e-mail address, the last that has the name of the
    user; it finds none when there is no such record. *)
Theorem lookup_result_last_match (entries : list LdapEntry) (user : User) :
  lookup_result (index_entries entries) user
  = last (filter (λ entry, matches_lookup user entry = true) entries).
Proof. apply lookup_index_last. Qed.

Lemma resolve_users_unmatched_witness :
  let users := [Example.ann_from_ticket; Example.dan_from_ticket] in
  let ldap := Example.directory [Example.entry_of Example.ann] in
  forallb is_fully_resolved users = false
  ∧ (∃ u, u ∈ users ∧ lookup_result (index_entries [Example.entry_of Example.ann]) u = None)
  ∧ (@resolve_users Example.length_hash "ou=people" ldap users).2
    = Raise (AttributeError "'NoneType' object has no attribute 'cn'").
Proof.
  intros users ldap.
  assert (∃ u, u ∈ users
               ∧ lookup_result (index_entries [Example.entry_of Example.ann]) u = None)
    as Hunmatched.
  { exists Example.dan_from_ticket. split; [|by vm_compute].
    apply elem_of_cons. right. by apply list_elem_of_singleton. }
  split; [reflexivity|]. split; [exact Hunmatched|].
  apply (@resolve_users_unmatched Example.length_hash "ou=people" ldap users true
           [Example.entry_of Example.ann]);
    [reflexivity | reflexivity | reflexivity | discriminate | exact Hunmatched].
Defined.

Lemma length_set_add {A} `{Hashable A} (s : list A) (x : A) :
  (length (set_add s x) ≤ S (length s))%nat.
Proof.
  unfold set_add. destruct (set_contains s x); [lia|]. rewrite length_app. simpl. lia.
Qed.

Lemma resolve_loop_Ok `{StrHash} (results_map : results_index)
    (users resolved_users us : list User) :
  resolve_loop results_map resolved_users users = Ok us →
  NoDup resolved_users →
  NoDup us
  ∧ (length us ≤ length resolved_users + length users)%nat
  ∧ (∀ user, user ∈ users →
       ∃ e, lookup_result results_map user = Some e ∧ user_of_entry e ∈ us)
  ∧ (∀ u, u ∈ resolved_users → u ∈ us)
  ∧ (∀ u, u ∈ us →
       u ∈ resolved_users
       ∨ ∃ user e, user ∈ users ∧ lookup_result results_map user = Some e
                   ∧ u = user_of_entry e).
Proof.
  revert resolved_users. induction users as [|user rest IH]; intros acc; simpl.
  - intros [= <-] Hnd. split_and!; [done | lia | | done | by left].
    by intros user ?%elem_of_nil.
  - unfold resolve_user at 1.
    destruct (lookup_result results_map user) as [e|] eqn:Hlook; simpl; [|done].
    fold (user_of_entry e). intros Hloop Hnd.
    apply IH in Hloop as (Hnd' & Hlen & Hall & Hacc & Hus);
      [|by apply (NoDup_set_add User_same_element)].
    pose proof (length_set_add acc (user_of_entry e)). split_and!.
    + done.
    + simpl. lia.
    + intros user' [->|Hin]%elem_of_cons; [|by apply Hall].
      exists e. split; [done|]. apply Hacc, (elem_of_set_add User_same_element). by right.
    + intros u Hu. apply Hacc, (elem_of_set_add User_same_element). by left.
    + intros u [Hu|(user' & e' & Hin & Hl & ->)]%Hus.
      * apply (elem_of_set_add User_same_element) in Hu as [Hu| ->]; [by left|].
        right. exists user, e. split; [by left | done].
      * right. exists user', e'. split; [by right | done].
Qed.

(** When the search has returned records and [resolve_users] returns a
    set, every user given has a record, found as the loop finds it, and
    the set returned consists of the users built from those records and
    of nothing else: no field of a user given is carried over. The set
    has no duplicates and no more elements than there were users. *)
Theorem resolve_users_from_directory `{StrHash} (search_base : string) (ldap : LdapServer)
    (users us : list User) (bound : bool) (entries : list LdapEntry) :
  forallb is_fully_resolved users = false →
  ldap_bind ldap = Ok bound →
  ldap_search ldap search_base (search_filter_of (map get_filter_parameter users))
    LDAP_ATTRIBUTES = Ok entries →
  (resolve_users search_base ldap users).2 = Ok us →
  NoDup us
  ∧ (length us ≤ length users)%nat
  ∧ (∀ user, user ∈ users →
       ∃ e, last (filter (λ entry, matches_lookup user entry = true) entries) = Some e
            ∧ user_of_entry e ∈ us)
  ∧ (∀ u, u ∈ us →
       ∃ user e, user ∈ users ∧ e ∈ entries ∧ matches_lookup user e = true
                 ∧ u = user_of_entry e).
Proof.
  intros Hall Hbind Hsearch. unfold resolve_users.
  case_bool_decide as Hnil; [by subst|].
  rewrite Hall, Hbind, Hsearch. simpl. case_bool_decide as Hentries; [done|].
  destruct (resolve_loop (index_entries entries) [] users) as [us'|e] eqn:Hloop;
    [|by destruct e].
  simpl. intros [= ->].
  apply resolve_loop_Ok in Hloop as (Hnd & Hlen & Hfound & _ & Hus); [|constructor].
  split_and!; [done | simpl in Hlen; lia | |].
  - intros user (e & Hl & He)%Hfound. exists e. by rewrite <- lookup_index_last.
  - intros u [?%elem_of_nil|(user & e & Hin & Hl & ->)]%Hus; [done|].
    rewrite lookup_index_last in Hl. apply last_Some_elem_of in Hl.
    apply list_elem_of_filter in Hl as [Hm He]. by exists user, e.
Qed.

Lemma resolve_users_from_directory_witness :
  let users := [Example.ann_from_ticket; Example.bob_without_id; Example.ann_from_ticket] in
  let entries := [Example.entry_of Example.ann; Example.entry_of Example.bob] in
  forallb is_fully_resolved users = false
  ∧ (@resolve_users Example.length_hash "ou=people" (Example.directory entries) users).2
    = Ok [Example.ann; Example.bob]
  ∧ (length [Example.ann; Example.bob] ≤ length users)%nat.
Proof.
  intros users entries. split; [reflexivity|]. split; [by vm_compute|].
  exact (proj1 (proj2 (@resolve_users_from_directory Example.length_hash "ou=people"
                         (Example.directory entries) users [Example.ann; Example.bob] true
                         entries eq_refl eq_refl eq_refl ltac:(by vm_compute)))).
Defined.

(** A call of [resolve_users] sends no request when the users given are
    all fully resolved (none given included), and otherwise binds and
    then sends at most one search, which carries the clauses of all the
    users. *)
Theorem resolve_users_one_search `{StrHash} (search_base : string) (ldap : LdapServer)
    (users : list User) :
  ((resolve_users search_base ldap users).1 = []
   ↔ forallb is_fully_resolved users = true)
  ∧ ((resolve_users search_base ldap users).1 = []
     ∨ (resolve_users search_base ldap users).1 = [Bind]
     ∨ (resolve_users search_base ldap users).1
       = [Bind; Search search_base (search_filter_of (map get_filter_parameter users))
                  LDAP_ATTRIBUTES]).
Proof.
  unfold resolve_users. case_bool_decide as Hnil.
  { subst. simpl. split; [done | by left]. }
  destruct (forallb is_fully_resolved users); simpl.
  { split; [done | by left]. }
  destruct (ldap_bind ldap) as [bound|e]; simpl.
  2:{ split; [done | right; by left]. }
  destruct (ldap_search ldap search_base _ LDAP_ATTRIBUTES) as [entries|e]; simpl;
    (split; [done | right; by right]).
Qed.

(** ** activities/jira.py *)

(** A ticket none of whose links is a Finish-to-Start link with an
    inward issue has no pending prerequisite, and Jira is not asked:
    the answer is the same with a Jira client that fails every query. *)
Theorem no_prerequisite_links_no_query (CONF : Conf) (jira : JiraServer) (issue : Issue) :
  (∀ link, link ∈ default [] (issuelinks issue) →
           String.prefix "Finish-to-Start" (link_type_name link) = false
           ∨ inwardIssue link = None) →
  get_pending_prerequisite_issues CONF jira issue = Ok None.
Proof.
  unfold get_pending_prerequisite_issues.
  destruct (issuelinks issue) as [links|]; simpl; [|done].
  intros Hlinks. assert (prerequisite_issues_of links = []) as ->; [|done].
  induction links as [|link links IH]; simpl; [done|].
  destruct (Hlinks link) as [->| ->]; [by left | |]; simpl.
  - apply IH. intros l Hl. apply Hlinks. by right.
  - destruct (negb _); apply IH; intros l Hl; apply Hlinks; by right.
Qed.

Lemma no_prerequisite_links_no_query_witness :
  let issue := {| key := "PACLOUD-46"; status_name := "To Do"; integration_layer := None;
                  collaborators := None; assignee := None;
                  issuelinks := Some [{| link_type_name := "Relates";
                                         inwardIssue := Some "PACLOUD-40" |};
                                      {| link_type_name := "Finish-to-Start (FS)";
                                         inwardIssue := None |}] |} in
  get_pending_prerequisite_issues Example.CONF {| search_issues := λ _, Raise JIRAError |} issue
  = Ok None.
Proof.
  intros issue.
  apply (no_prerequisite_links_no_query Example.CONF
           {| search_issues := λ _, Raise JIRAError |} issue).
  intros link [->|Hin]%elem_of_cons; [by left|].
  apply list_elem_of_singleton in Hin as ->. by right.
Defined.

(** For a ticket with prerequisites, what counts is what Jira returns
    for their keys: the pending ones are the returned issues that are not
    Done, in the order returned, and the ticket is actionable exactly
    when it is not Done itself and every returned issue is. A
    prerequisite that the query does not return does not hold the ticket
    back. *)
Theorem prerequisites_pending_until_done (CONF : Conf) (jira : JiraServer) (issue : Issue)
    (links : list IssueLink) (tasks : list Issue) :
  issuelinks issue = Some links →
  prerequisite_issues_of links ≠ [] →
  get_issues_by_keys CONF jira (prerequisite_issues_of links) = Ok tasks →
  get_pending_prerequisite_issues CONF jira issue
  = Ok (Some (key <$> filter (λ task, is_issue_completed task = false) tasks))
  ∧ (actionable CONF jira issue
     ↔ is_issue_completed issue = false
       ∧ ∀ task, task ∈ tasks → is_issue_completed task = true).
Proof.
  intros Hlinks Hpre Hquery.
  assert (get_pending_prerequisite_issues CONF jira issue
          = Ok (Some (key <$> filter (λ task, is_issue_completed task = false) tasks)))
    as Hpending.
  { unfold get_pending_prerequisite_issues. rewrite Hlinks.
    rewrite bool_decide_eq_false_2 by done. by rewrite Hquery. }
  split; [done|]. unfold actionable. rewrite Hpending. split.
  - intros [Hdone [[=]|[= Hnone]]]. split; [done|].
    apply fmap_nil_inv in Hnone. intros task Htask.
    destruct (is_issue_completed task) eqn:Hc; [done|].
    assert (task ∈ filter (λ task, is_issue_completed task = false) tasks) as Hin
      by by apply list_elem_of_filter.
    rewrite Hnone in Hin. by apply elem_of_nil in Hin.
  - intros [Hdone Hall]. split; [done|]. right. do 2 f_equal.
    assert (filter (λ task, is_issue_completed task = false) tasks = []) as ->; [|done].
    destruct (filter (λ task, is_issue_completed task = false) tasks) as [|task rest] eqn:E;
      [done|].
    assert (task ∈ filter (λ task, is_issue_completed task = false) tasks) as Hin
      by (rewrite E; by left).
    apply list_elem_of_filter in Hin as [Hc Htask]. by rewrite (Hall task Htask) in Hc.
Qed.

Lemma prerequisites_pending_until_done_witness :
  let jira := Example.tracker [Example.ticket_40] in
  issuelinks Example.ticket_45
  = Some [{| link_type_name := "Finish-to-Start (FS)"; inwardIssue := Some "PACLOUD-40" |};
          {| link_type_name := "Relates"; inwardIssue := Some "PACLOUD-41" |}]
  ∧ get_issues_by_keys Example.CONF jira ["PACLOUD-40"] = Ok [Example.ticket_40]
  ∧ get_pending_prerequisite_issues Example.CONF jira Example.ticket_45 = Ok (Some [])
  ∧ actionable Example.CONF jira Example.ticket_45.
Proof.
  intros jira. split; [reflexivity|]. split; [reflexivity|].
  destruct (prerequisites_pending_until_done Example.CONF jira Example.ticket_45
              [{| link_type_name := "Finish-to-Start (FS)";
                  inwardIssue := Some "PACLOUD-40" |};
               {| link_type_name := "Relates"; inwardIssue := Some "PACLOUD-41" |}]
              [Example.ticket_40] eq_refl ltac:(discriminate) eq_refl)
    as [Hpending Hactionable].
  split; [exact Hpending|]. apply Hactionable. split; [reflexivity|].
  intros task Htask. apply list_elem_of_singleton in Htask as ->. reflexivity.
Defined.

(** The tickets that are Done take no part in the extraction: leaving
    them out of the list changes neither the map built nor an exception
    raised, whatever their other fields hold. *)
Theorem completed_issues_are_skipped `{StrHash} (CONF : Conf) (jira : JiraServer)
    (cloud : string) (infra : Resource) (issues : list Issue)
    (resource_map : list (Resource * list User)) :
  issues_loop CONF jira cloud infra resource_map issues
  = issues_loop CONF jira cloud infra resource_map
      (filter (λ issue, is_issue_completed issue = false) issues).
Proof.
  revert resource_map. induction issues as [|issue issues IH]; intros resource_map; [done|].
  rewrite filter_cons. destruct (is_issue_completed issue) eqn:Hdone.
  - rewrite decide_False by done. simpl. unfold issue_step at 1. rewrite Hdone. simpl.
    apply IH.
  - rewrite decide_True by done. simpl.
    destruct (issue_step CONF jira cloud infra resource_map issue); simpl; [apply IH | done].
Qed.

Lemma issue_step_null_assignee_witness :
  let jira := Example.tracker [Example.ticket_43] in
  actionable Example.CONF jira Example.ticket_43
  ∧ assignee Example.ticket_43 = None
  ∧ @issue_step Example.length_hash Example.CONF jira "PC5a"
      (infra_node_of Example.CONF "PC5a") [] Example.ticket_43
    = Raise (AttributeError "'NoneType' object has no attribute 'displayName'").
Proof.
  intros jira.
  assert (actionable Example.CONF jira Example.ticket_43) as Hactionable.
  { split; [reflexivity | by left]. }
  split; [exact Hactionable|]. split; [reflexivity|].
  exact (@issue_step_null_assignee Example.length_hash Example.CONF jira "PC5a"
           (infra_node_of Example.CONF "PC5a") [] Example.ticket_43 Hactionable eq_refl).
Defined.

Lemma issue_step_Ok_collaborators `{StrHash} (CONF : Conf) (jira : JiraServer)
    (cloud : string) (infra : Resource) (rm rm' : list (Resource * list User))
    (issue : Issue) :
  issue_step CONF jira cloud infra rm issue = Ok rm' →
  actionable CONF jira issue →
  ∃ us, collaborator_set issue = Ok us.
Proof.
  unfold issue_step. intros Hstep [Hdone Hpending]. rewrite Hdone in Hstep.
  fold (collaborator_set issue) in Hstep.
  destruct (collaborator_set issue) as [us|e]; [by eexists|].
  destruct Hpending as [Hp|Hp]; rewrite Hp in Hstep; simpl in Hstep; done.
Qed.

Lemma issues_loop_Ok_collaborators `{StrHash} (CONF : Conf) (jira : JiraServer)
    (cloud : string) (infra : Resource) (issues : list Issue)
    (rm rm' : list (Resource * list User)) (issue : Issue) :
  issues_loop CONF jira cloud infra rm issues = Ok rm' →
  issue ∈ issues →
  actionable CONF jira issue →
  ∃ us, collaborator_set issue = Ok us.
Proof.
  revert rm. induction issues as [|t issues IH]; intros rm; simpl.
  - by intros _ ?%elem_of_nil.
  - destruct (issue_step CONF jira cloud infra rm t) as [rm1|e] eqn:Hstep; simpl; [|done].
    intros Hloop [->|Hin]%elem_of_cons Hact.
    + by eapply issue_step_Ok_collaborators.
    + by eapply IH.
Qed.

(** What a returned [AccessResult] is: the map that the updates of the
    contributing tickets build, passed through [from_map]. *)
Lemma get_access_for_current_sprint_Ok `{StrHash} (CONF : Conf) (jira : JiraServer)
    (cloud : string) (access_result : AccessResult) :
  get_access_for_current_sprint CONF jira cloud = Ok access_result →
  ∃ issues ups,
    get_issues_for_current_sprint CONF jira (Some cloud) = Ok issues
    ∧ access_result = from_map (apply_updates [] ups)
    ∧ (∀ r us, (r, us) ∈ ups
               ↔ ∃ issue, issue ∈ issues
                          ∧ contributes CONF jira cloud (infra_node_of CONF cloud) issue r us)
    ∧ (∀ issue, issue ∈ issues → actionable CONF jira issue →
                ∃ us, collaborator_set issue = Ok us).
Proof.
  unfold get_access_for_current_sprint.
  destruct (get_issues_for_current_sprint CONF jira (Some cloud)) as [issues|e];
    simpl; [|by destruct e].
  unfold CONF_get. case_bool_decide; simpl; [|done].
  fold (infra_node_of CONF cloud).
  destruct (issues_loop CONF jira cloud (infra_node_of CONF cloud) [] issues)
    as [rm|e] eqn:Hloop; simpl; [|by destruct e].
  intros [= <-]. pose proof Hloop as Hloop'.
  apply issues_loop_updates in Hloop as (ups & -> & Hups).
  exists issues, ups. split_and!; [done | done | done |].
  intros issue. by apply (issues_loop_Ok_collaborators _ _ _ _ _ _ _ _ Hloop').
Qed.

(** The resources of a returned result are those that some actionable
    ticket of the sprint asks access to through an Infrastructure or a
    Platform layer, each once: an Application layer or an unknown one
    adds no resource, and neither does a ticket that is skipped. *)
Theorem access_result_resources `{StrHash} (CONF : Conf) (jira : JiraServer)
    (cloud : string) (issues : list Issue) (access_result : AccessResult) :
  get_issues_for_current_sprint CONF jira (Some cloud) = Ok issues →
  get_access_for_current_sprint CONF jira cloud = Ok access_result →
  NoDup (resources access_result)
  ∧ ∀ r, r ∈ resources access_result
         ↔ ∃ issue integration,
             issue ∈ issues ∧ actionable CONF jira issue
             ∧ integration ∈ default [] (integration_layer issue)
             ∧ (integration = "Infrastructure" ∧ r = infra_node_of CONF cloud
                ∨ integration = "Platform"
                  ∧ r = OpenStackProject (lower (key issue)) None (Some cloud)).
Proof.
  intros Hissues
    (issues' & ups & Hissues' & -> & Hups & Hconv)%get_access_for_current_sprint_Ok.
  rewrite Hissues in Hissues'. injection Hissues' as <-.
  simpl. change (map fst (apply_updates [] ups)) with ((apply_updates [] ups).*1).
  split; [apply NoDup_apply_updates_keys; constructor|].
  intros r. rewrite elem_of_apply_updates_keys, elem_of_nil, list_elem_of_fmap. split.
  - intros [[]|([r' us] & -> & Hin)]. simpl.
    apply Hups in Hin as (issue & Hissue & Hact & _ & i & Hi & Hreq).
    exists issue, i. split_and!; [done | done | done |].
    unfold required_resource in Hreq. repeat case_bool_decide; simplify_eq; auto.
  - intros (issue & i & Hissue & Hact & Hi & Hr).
    destruct (Hconv issue Hissue Hact) as [us Hus].
    right. exists (r, us). split; [done|]. apply Hups. exists issue.
    split; [done|]. split_and!; [done | done |]. exists i. split; [done|].
    unfold required_resource. destruct Hr as [[-> ->]|[-> ->]]; by repeat case_bool_decide.
Qed.

Lemma access_result_resources_witness :
  let jira := Example.tracker [Example.ticket_40; Example.ticket_41; Example.ticket_42] in
  get_issues_for_current_sprint Example.CONF jira (Some "PC5a")
  = Ok [Example.ticket_40; Example.ticket_41; Example.ticket_42]
  ∧ is_Ok (@get_access_for_current_sprint Example.length_hash Example.CONF jira "PC5a") = true
  ∧ ∀ access_result,
      @get_access_for_current_sprint Example.length_hash Example.CONF jira "PC5a"
      = Ok access_result →
      NoDup (resources access_result)
      ∧ OpenStackProject "pacloud-42" None (Some "PC5a") ∈ resources access_result.
Proof.
  intros jira. split; [reflexivity|]. split; [by vm_compute|].
  intros access_result Haccess.
  destruct (@access_result_resources Example.length_hash Example.CONF jira "PC5a"
              [Example.ticket_40; Example.ticket_41; Example.ticket_42] access_result
              eq_refl Haccess) as [Hnd Hres].
  split; [exact Hnd|]. apply Hres. exists Example.ticket_42, "Platform".
  split_and!.
  - do 2 right. by left.
  - split; [reflexivity | by left].
  - right. by left.
  - right. split; reflexivity.
Defined.

Lemma convert_users_no_launchpad_id (jira_users : list (option JiraUser)) (us : list User) :
  list_comprehension convert_user jira_users = Ok us →
  ∀ u, u ∈ us → launchpad_id u = None.
Proof.
  revert us. induction jira_users as [|[ju|] rest IH]; intros us; simpl; [| |done].
  - intros [= <-] u Hu. by apply elem_of_nil in Hu.
  - destruct (list_comprehension convert_user rest) as [us'|e]; simpl; [|done].
    intros [= <-] u [->|Hu]%elem_of_cons; [done|]. by apply (IH us').
Qed.

Lemma elem_of_dict_set {A V} `{Hashable A} (d : list (A * V)) (k : A) (v : V) (e : A * V) :
  e ∈ dict_set d k v → e ∈ d ∨ e.2 = v.
Proof.
  induction d as [|[k' v'] d IH]; simpl.
  - intros ->%list_elem_of_singleton. by right.
  - destruct (same_element k k').
    + intros [->|He]%elem_of_cons; [by right | left; by right].
    + intros [->|He]%elem_of_cons; [left; by left|].
      destruct (IH He); [left; by right | by right].
Qed.

Lemma to_map_values `{StrHash} (access_result : AccessResult) (e : Resource * list User) :
  e ∈ to_map access_result →
  e.2 = [] ∨ ∃ n, users access_result !! n = Some e.2.
Proof.
  unfold to_map.
  assert (∀ l acc, e ∈ fold_left (λ mapping resource,
                       dict_set mapping resource
                         (default [] (users access_result !! resource_name resource))) l acc →
                   e ∈ acc ∨ e.2 = [] ∨ ∃ n, users access_result !! n = Some e.2) as Hfold.
  { induction l as [|r l IH]; intros acc; simpl; [by left|].
    intros [[Hin|Hv]%elem_of_dict_set|Hv]%IH; [by left | right | by right].
    rewrite Hv. destruct (users access_result !! resource_name r) eqn:Hn; [|by left].
    right. by exists (resource_name r). }
  intros [?%elem_of_nil|Hv]%Hfold; done.
Qed.

Lemma user_map_lookup_Some (data : list (Resource * list User))
    (user_map : gmap string (list User)) (n : string) (us : list User) :
  fold_left (λ user_map entry, <[resource_name entry.1 := entry.2]> user_map) data user_map
    !! n = Some us →
  user_map !! n = Some us ∨ ∃ r, (r, us) ∈ data.
Proof.
  revert user_map. induction data as [|[r us'] data IH]; intros user_map; simpl; [by left|].
  intros [Hl|(r' & Hin)]%IH.
  - apply lookup_insert_Some in Hl as [[_ <-]|[_ Hl]]; [|by left].
    right. exists r. by left.
  - right. exists r'. by right.
Qed.

(** The users that the extractor returns all lack a Launchpad id:
    [convert_user] fills in a name and an e-mail address only. So no
    user set that it returns is fully resolved, and [resolve_users] sends
    requests to the directory for every one of them that is not empty. *)
Theorem extracted_users_need_resolution `{StrHash} (CONF : Conf) (jira : JiraServer)
    (cloud : string) (access_result : AccessResult) :
  get_access_for_current_sprint CONF jira cloud = Ok access_result →
  ∀ r us, (r, us) ∈ to_map access_result →
    (∀ u, u ∈ us → launchpad_id u = None ∧ is_fully_resolved u = false)
    ∧ ∀ search_base ldap, us ≠ [] → (resolve_users search_base ldap us).1 ≠ [].
Proof.
  intros (issues & ups & _ & -> & Hups & _)%get_access_for_current_sprint_Ok r us Hin.
  assert (∀ u, u ∈ us → launchpad_id u = None) as Hnone.
  { apply to_map_values in Hin as [Hnil|(n & Hn)]; simpl in *.
    { rewrite Hnil. by intros u ?%elem_of_nil. }
    apply user_map_lookup_Some in Hn as [Hn|(r' & Hr')]; [done|].
    intros u Hu.
    assert (NoDup (apply_updates [] ups).*1) as Hnd
      by (apply NoDup_apply_updates_keys; constructor).
    apply (dict_get_NoDup Resource_same_element _ _ _ Hnd) in Hr'.
    pose proof (elem_of_apply_updates ups [] r' u) as Hiff. rewrite Hr' in Hiff. simpl in Hiff.
    apply Hiff in Hu as [?%elem_of_nil|(us' & Hup & Hu)]; [done|].
    apply Hups in Hup as (issue & _ & _ & Hconv & _).
    by apply (convert_users_no_launchpad_id _ _ Hconv). }
  split.
  - intros u Hu. split; [by apply Hnone|].
    unfold is_fully_resolved. rewrite (Hnone u Hu).
    rewrite (bool_decide_eq_false_2 (None ≠ None)) by (by intros ?).
    by rewrite andb_false_r.
  - intros search_base ldap Hne. unfold resolve_users.
    rewrite bool_decide_eq_false_2 by done.
    assert (forallb is_fully_resolved us = false) as ->.
    { destruct us as [|u us]; [done|]. simpl. unfold is_fully_resolved at 1.
      rewrite (Hnone u) by by left.
      rewrite (bool_decide_eq_false_2 (None ≠ None)) by (by intros ?).
      by rewrite andb_false_r. }
    destruct (ldap_bind ldap); [|done]. by destruct (ldap_search ldap _ _ _).
Qed.

Lemma extracted_users_need_resolution_witness :
  let jira := Example.tracker [Example.ticket_41; Example.ticket_42] in
  let access_result :=
    from_map [(infra_node_of Example.CONF "PC5a",
               [Example.ann_from_ticket; Example.bob_without_id; Example.cat_from_ticket]);
              (OpenStackProject "pacloud-42" None (Some "PC5a"),
               [Example.cat_from_ticket; Example.ann_from_ticket])] in
  @get_access_for_current_sprint Example.length_hash Example.CONF jira "PC5a"
  = Ok access_result
  ∧ (OpenStackProject "pacloud-42" None (Some "PC5a"),
     [Example.cat_from_ticket; Example.ann_from_ticket])
    ∈ @to_map Example.length_hash access_result
  ∧ (@resolve_users Example.length_hash "ou=people" (Example.directory [])
       [Example.cat_from_ticket; Example.ann_from_ticket]).1 ≠ [].
Proof.
  intros jira access_result.
  assert (@get_access_for_current_sprint Example.length_hash Example.CONF jira "PC5a"
          = Ok access_result) as Haccess by (by vm_compute).
  assert ((OpenStackProject "pacloud-42" None (Some "PC5a"),
           [Example.cat_from_ticket; Example.ann_from_ticket])
          ∈ @to_map Example.length_hash access_result) as Hin.
  { vm_compute. right. by left. }
  split; [exact Haccess|]. split; [exact Hin|].
  apply (proj2 (@extracted_users_need_resolution Example.length_hash Example.CONF jira "PC5a"
                  access_result Haccess _ _ Hin) "ou=people" (Example.directory [])).
  discriminate.
Defined.

(** [to_map] undoes [from_map] on a map whose resources are distinct and
    have distinct names: the resources come back in their order, each
    with its user set. *)
Theorem access_result_round_trip `{StrHash} (data : list (Resource * list User)) :
  NoDup data.*1 →
  (∀ r1 r2, r1 ∈ data.*1 → r2 ∈ data.*1 → resource_name r1 = resource_name r2 → r1 = r2) →
  to_map (from_map data) = data.
Proof. apply to_map_from_map. Qed.

Lemma access_result_round_trip_witness :
  let data := [(infra_node_of Example.CONF "PC5a", [Example.ann; Example.bob]);
               (OpenStackProject "pacloud-42" None (Some "PC5a"), [])] in
  NoDup data.*1
  ∧ @to_map Example.length_hash (from_map data) = data.
Proof.
  intros data.
  assert (NoDup data.*1) as Hnd.
  { apply NoDup_cons. split; [|apply NoDup_singleton].
    intros Hin%list_elem_of_singleton. discriminate. }
  split; [exact Hnd|].
  apply (@access_result_round_trip Example.length_hash data Hnd).
  intros r1 r2 Hr1 Hr2 Hname.
  apply elem_of_cons in Hr1 as [->|Hr1]; apply elem_of_cons in Hr2 as [->|Hr2];
    try (apply list_elem_of_singleton in Hr1 as ->);
    try (apply list_elem_of_singleton in Hr2 as ->);
    first [reflexivity | discriminate].
Defined.

(** ** workflows/grant_access.py *)

Lemma find_cloud_config_registered (CONF : Conf) (cs : list string) (cloud : string) :
  (∀ c, c ∈ cs → c ∈ clouds CONF) →
  find_cloud_config CONF cs cloud
  = Ok (head (filter (λ config, cfg_name config = cloud) (cloud_section CONF <$> cs))).
Proof.
  induction cs as [|c cs IH]; intros Hcs; simpl; [done|].
  unfold CONF_get. rewrite bool_decide_eq_true_2 by (apply Hcs; by left). simpl.
  rewrite filter_cons. case_bool_decide as Hname.
  - by rewrite decide_True.
  - rewrite decide_False by done. apply IH. intros c' Hc'. apply Hcs. by right.
Qed.

(** The search for the configuration of a cloud never raises, and it
    finds the section of the first cloud of [CONF.clouds] whose name
    option is the cloud asked for, if there is one. *)
Theorem find_cloud_config_first_match (CONF : Conf) (cloud : string) :
  find_cloud_config CONF (clouds CONF) cloud
  = Ok (head (filter (λ config, cfg_name config = cloud)
                     (cloud_section CONF <$> clouds CONF))).
Proof. by apply find_cloud_config_registered. Qed.

(** A run for a cloud that no section of the configuration names raises
    the exception of the unknown cloud; nothing has been granted and
    Launchpad is as it was. *)
Theorem run_unknown_cloud `{StrHash} {S} (w : World S) (project cloud : string) (st : S) :
  (∀ c, c ∈ clouds (world_conf w) → cfg_name (cloud_section (world_conf w) c) ≠ cloud) →
  run w project cloud st
  = {| final_state := st; grant_outcomes := [];
       returned := Raise (Exception ("Unable to find configuration for cloud " ++ cloud)) |}.
Proof.
  intros Hnone. unfold run, run_requirements.
  rewrite find_cloud_config_registered by done.
  assert (filter (λ config, cfg_name config = cloud)
            (cloud_section (world_conf w) <$> clouds (world_conf w)) = []) as ->; [|done].
  induction (clouds (world_conf w)) as [|c cs IH]; [done|].
  rewrite fmap_cons, filter_cons, decide_False by (apply Hnone; by left).
  apply IH. intros c' Hc'. apply Hnone. by right.
Qed.

Lemma run_unknown_cloud_witness :
  (∀ c, c ∈ clouds (world_conf Example.world) →
        cfg_name (cloud_section (world_conf Example.world) c) ≠ "PC6")
  ∧ @run Example.length_hash _ Example.world "PACLOUD" "PC6" Example.lp_initial
    = {| final_state := Example.lp_initial; grant_outcomes := [];
         returned := Raise (Exception "Unable to find configuration for cloud PC6") |}.
Proof.
  assert (∀ c, c ∈ clouds (world_conf Example.world) →
               cfg_name (cloud_section (world_conf Example.world) c) ≠ "PC6") as Hnone.
  { intros c _. discriminate. }
  split; [exact Hnone|].
  exact (@run_unknown_cloud Example.length_hash _ Example.world "PACLOUD" "PC6"
           Example.lp_initial Hnone).
Defined.

Lemma elem_of_dict_set_NoDup {A V} `{Hashable A}
    (same_element_eq : ∀ x y : A, same_element x y = true ↔ x = y)
    (d : list (A * V)) (k : A) (v : V) (e : A * V) :
  NoDup d.*1 →
  e ∈ dict_set d k v → e = (k, v) ∨ (e ∈ d ∧ e.1 ≠ k).
Proof.
  induction d as [|[k' v'] d IH]; simpl.
  - intros _ ->%list_elem_of_singleton. by left.
  - intros [Hk' Hnd]%NoDup_cons. destruct (same_element k k') eqn:E.
    + apply same_element_eq in E as <-.
      intros [->|He]%elem_of_cons; [by left|]. right. split; [by right|].
      intros Hk. apply Hk'. rewrite <- Hk. apply list_elem_of_fmap. by exists e.
    + intros [->|He]%elem_of_cons.
      * right. split; [by left|]. simpl. intros ->.
        rewrite (proj2 (same_element_eq k k) eq_refl) in E. done.
      * destruct (IH Hnd He) as [->|[Hin Hne]]; [by left|]. right. split; [by right | done].
Qed.

Lemma resolve_resources_Ok `{StrHash} (CONF : Conf) (ldap : LdapServer)
    (items acc rm' : list (Resource * list User)) :
  resolve_resources CONF ldap items acc = Ok rm' →
  (∀ r, r ∈ items.*1 → r ∈ acc.*1) →
  NoDup acc.*1 →
  rm'.*1 = acc.*1
  ∧ ∀ r us', (r, us') ∈ rm' →
      (∃ us, (r, us) ∈ items ∧ (resolve_users (ldap_search_base CONF) ldap us).2 = Ok us')
      ∨ ((r, us') ∈ acc ∧ r ∉ items.*1).
Proof.
  revert acc. induction items as [|[r0 us0] items IH]; intros acc; simpl.
  - intros [= <-] _ _. split; [done|]. intros r us' Hin. right. split; [done|].
    apply not_elem_of_nil.
  - destruct ((resolve_users (ldap_search_base CONF) ldap us0).2) as [v|e] eqn:Hres;
      simpl; [|done].
    intros Hloop Hkeys Hnd.
    assert (r0 ∈ acc.*1) as Hr0 by (apply Hkeys; by left).
    pose proof (dict_set_keys_present Resource_same_element acc r0 v Hr0) as Hsame.
    apply IH in Hloop as [Hk Hv].
    + split; [congruence|]. intros r us' [(us & Hin & Hr)|[Hin Hnot]]%Hv.
      * left. exists us. split; [by right | done].
      * apply (elem_of_dict_set_NoDup Resource_same_element) in Hin
          as [[= -> ->]|[Hin Hne]]; [| |done].
        -- left. exists us0. split; [by left | done].
        -- right. split; [done|]. simpl in Hne. rewrite not_elem_of_cons. done.
    + intros r Hr. rewrite Hsame. apply Hkeys. by right.
    + by rewrite Hsame.
Qed.

(** The resolution step keeps the resources of the map and their
    order; each resource ends with the set that [resolve_users] has
    returned for the set it had. *)
Theorem resolve_resources_in_place `{StrHash} (CONF : Conf) (ldap : LdapServer)
    (resource_map resource_map' : list (Resource * list User)) :
  NoDup resource_map.*1 →
  resolve_resources CONF ldap resource_map resource_map = Ok resource_map' →
  resource_map'.*1 = resource_map.*1
  ∧ ∀ r us', (r, us') ∈ resource_map' →
      ∃ us, (r, us) ∈ resource_map
            ∧ (resolve_users (ldap_search_base CONF) ldap us).2 = Ok us'.
Proof.
  intros Hnd Hres. apply resolve_resources_Ok in Hres as [Hk Hv]; [|done|done].
  split; [done|]. intros r us' [?|[Hin Hnot]]%Hv; [done|].
  destruct Hnot. apply list_elem_of_fmap. by exists (r, us').
Qed.

Lemma resolve_resources_in_place_witness :
  let resource_map :=
    [(infra_node_of Example.CONF "PC5a", [Example.ann_from_ticket; Example.bob_without_id]);
     (OpenStackProject "pacloud-42" None (Some "PC5a"), [])] in
  let ldap := Example.directory [Example.entry_of Example.ann; Example.entry_of Example.bob] in
  NoDup resource_map.*1
  ∧ @resolve_resources Example.length_hash Example.CONF ldap resource_map resource_map
    = Ok [(infra_node_of Example.CONF "PC5a", [Example.ann; Example.bob]);
          (OpenStackProject "pacloud-42" None (Some "PC5a"), [])]
  ∧ [(infra_node_of Example.CONF "PC5a", [Example.ann; Example.bob]);
     (OpenStackProject "pacloud-42" None (Some "PC5a"), [])].*1 = resource_map.*1.
Proof.
  intros resource_map ldap.
  assert (NoDup resource_map.*1) as Hnd.
  { apply NoDup_cons. split; [|apply NoDup_singleton].
    intros Hin%list_elem_of_singleton. discriminate. }
  assert (@resolve_resources Example.length_hash Example.CONF ldap resource_map resource_map
          = Ok [(infra_node_of Example.CONF "PC5a", [Example.ann; Example.bob]);
                (OpenStackProject "pacloud-42" None (Some "PC5a"), [])]) as Hres
    by (by vm_compute).
  split; [exact Hnd|]. split; [exact Hres|].
  exact (proj1 (@resolve_resources_in_place Example.length_hash Example.CONF ldap
                  resource_map _ Hnd Hres)).
Defined.

Lemma add_users_to_group_Ok {S} (launchpad : Launchpad S) (grp : string)
    (user_batch : list User) (r : LaunchpadGroupChangeResult) (st st' : S) :
  add_users_to_group launchpad grp user_batch st = (st', Ok r) →
  group r = grp ∧ success r `sublist_of` user_batch ∧ (failed r).*1 `sublist_of` user_batch.
Proof.
  unfold add_users_to_group, lp_bind.
  destruct (people launchpad grp st) as [st1 [g|e]]; [|done].
  destruct (people launchpad "canonical" st1) as [st2 [c|e]]; [|done].
  intros (Hg & s & f & Hs & Hf & Hsub & Hfsub & Hlen)%add_users_loop_order.
  simpl in *. by subst.
Qed.

Lemma grant_tasks_omap (cloud_config : CloudConfig) (resource_map : list (Resource * list User)) :
  grant_tasks cloud_config resource_map
  = omap (λ e, if bool_decide (e.2 = []) then None
               else Some (group_for cloud_config e.1, e.2)) resource_map.
Proof.
  induction resource_map as [|[r us] rm IH]; simpl; [done|].
  case_bool_decide; [done|]. destruct r; simpl; by rewrite IH.
Qed.

Lemma wait_tasks_outcomes {S} (launchpad : Launchpad S) (tasks : list (string * list User))
    (st : S) :
  length (wait_tasks launchpad tasks st).2 = length tasks
  ∧ ∀ r, Ok r ∈ (wait_tasks launchpad tasks st).2 →
         ∃ grp us st0 st1, (grp, us) ∈ tasks
                           ∧ add_users_to_group launchpad grp us st0 = (st1, Ok r).
Proof.
  revert st. induction tasks as [|[grp us] tasks IH]; intros st; simpl.
  - split; [done|]. by intros r ?%elem_of_nil.
  - destruct (add_users_to_group launchpad grp us st) as [st1 o] eqn:Hrun.
    destruct (wait_tasks launchpad tasks st1) as [st2 os] eqn:Hrest.
    specialize (IH st1). rewrite Hrest in IH. destruct IH as [Hlen Hos]. simpl in *.
    split; [by rewrite Hlen|].
    intros r [<-|Hin]%elem_of_cons.
    + exists grp, us, st, st1. split; [by left | done].
    + destruct (Hos r Hin) as (g' & us' & st0 & st' & Hin' & Hrun').
      exists g', us', st0, st'. split; [by right | done].
Qed.

(** A run whose steps up to the grants succeed starts one grant per
    resource whose resolved user set is not empty, and all of them run
    to their end, whatever the others return or raise. A grant that
    returns has been made for the infra group of the cloud when the
    resource is an infra node, for its user group when it is a project,
    and its successes are users of that resource. *)
Theorem run_grants_per_resource `{StrHash} {S} (w : World S) (project cloud : string) (st : S)
    (cloud_config : CloudConfig) (resource_map : list (Resource * list User)) :
  run_requirements w cloud = Ok (cloud_config, resource_map) →
  length (grant_outcomes (run w project cloud st))
  = length (filter (λ e, e.2 ≠ []) resource_map)
  ∧ ∀ r, Ok r ∈ grant_outcomes (run w project cloud st) →
         ∃ resource us, (resource, us) ∈ resource_map ∧ us ≠ []
                        ∧ group r = group_for cloud_config resource
                        ∧ success r `sublist_of` us
                        ∧ (failed r).*1 `sublist_of` us.
Proof.
  intros Hreq. unfold run. rewrite Hreq.
  pose proof (wait_tasks_outcomes (world_launchpad w)
                (grant_tasks cloud_config resource_map) st) as [Hlen Hos].
  destruct (wait_tasks (world_launchpad w) (grant_tasks cloud_config resource_map) st)
    as [st' outcomes]. simpl in *. split.
  - rewrite Hlen, grant_tasks_omap. clear.
    induction resource_map as [|e rm IH]; simpl; [done|].
    rewrite filter_cons. case_bool_decide.
    + rewrite decide_False by (by intros ?). exact IH.
    + rewrite decide_True by done. simpl. f_equal. exact IH.
  - intros r (grp & us & st0 & st1 & Hin & Hrun)%Hos.
    rewrite grant_tasks_omap in Hin. apply list_elem_of_omap in Hin as ([resource us'] & Hin & He).
    simpl in He. case_bool_decide; [done|]. injection He as <- <-.
    apply add_users_to_group_Ok in Hrun as (Hg & Hs & Hf).
    by exists resource, us'.
Qed.

Lemma run_grants_per_resource_witness :
  let report := @run Example.length_hash _ Example.world "PACLOUD" "PC5a" Example.lp_initial in
  is_Ok (@run_requirements Example.length_hash _ Example.world "PC5a") = true
  ∧ length (grant_outcomes report) = 2.
Proof.
  intros report. subst report.
  destruct (@run_requirements Example.length_hash _ Example.world "PC5a")
    as [[cloud_config resource_map]|e] eqn:Hreq; [|by vm_compute in Hreq].
  split; [reflexivity|].
  rewrite (proj1 (@run_grants_per_resource Example.length_hash _ Example.world
                    "PACLOUD" "PC5a" Example.lp_initial cloud_config resource_map Hreq)).
  vm_compute in Hreq. injection Hreq as <- <-. reflexivity.
Defined.
